(** * Password evaluation service: [passwordLogic.js] and the evaluate route of [index.js]

    A shallow embedding of the scoring and matching code together with the
    properties its specification states about it.

    Modelling conventions.
    - A JavaScript string is the sequence of its UTF-16 code units
      ([jsstring = list N]); [password.length] is the length of that list and
      a regular expression without flags tests code units.
    - A JavaScript number that holds a length or a keyspace size is a [nat];
      the entropy and the durations derived from it are IEEE doubles in the
      program and are idealised here as real numbers, as the specification
      does ("E: real number in bits").
    - Built-ins whose tables are not part of the repository
      ([String.prototype.toLowerCase], [Number.prototype.toFixed],
      [Number.prototype.toLocaleString], [parseFloat]) are parameters of the
      development.
    - The corpus [commonPasswords] is a JavaScript [Set]; a [Set] iterates in
      insertion order, hence it is a list of strings. *)

From Stdlib Require Import String Ascii.
From Stdlib Require Import List Bool Arith NArith ZArith Lia Permutation.
From Stdlib Require Import Reals Lra.
Import ListNotations.

Set Implicit Arguments.

(* ------------------------------------------------------------------ *)
(** ** JavaScript strings *)

Definition codeunit := N.
Definition jsstring := list codeunit.

(** Literals are written as Rocq strings, which hold UTF-8 bytes; [js]
    decodes them to UTF-16 code units.  Every literal of the sources lies in
    the Basic Multilingual Plane, so one-, two- and three-byte sequences are
    all that is decoded. *)
Fixpoint utf16_of_utf8 (bs : list N) : jsstring :=
  match bs with
  | [] => []
  | b0 :: r0 =>
      if (b0 <? 128)%N then b0 :: utf16_of_utf8 r0
      else
        match r0 with
        | [] => []
        | b1 :: r1 =>
            if (b0 <? 224)%N
            then ((b0 mod 32) * 64 + b1 mod 64)%N :: utf16_of_utf8 r1
            else
              match r1 with
              | [] => []
              | b2 :: r2 =>
                  ((b0 mod 16) * 4096 + (b1 mod 64) * 64 + b2 mod 64)%N
                    :: utf16_of_utf8 r2
              end
        end
  end.

Definition js (s : string) : jsstring :=
  utf16_of_utf8 (map N_of_ascii (list_ascii_of_string s)).

Fixpoint jsstring_eqb (a b : jsstring) : bool :=
  match a, b with
  | [], [] => true
  | x :: a', y :: b' => (x =? y)%N && jsstring_eqb a' b'
  | _, _ => false
  end.

(** [t] occurs at the very start of [s]. *)
Fixpoint startsWith (s t : jsstring) {struct t} : bool :=
  match t, s with
  | [], _ => true
  | _ :: _, [] => false
  | y :: t', x :: s' => (x =? y)%N && startsWith s' t'
  end.

(** [String.prototype.includes]: [t] occurs in [s] at some index. *)
Fixpoint includes (s t : jsstring) : bool :=
  startsWith s t ||
  match s with
  | [] => false
  | _ :: s' => includes s' t
  end.

(* ------------------------------------------------------------------ *)
(** ** The four character classes of [calculateN] *)

(** [/[a-z]/] *)
Definition isLower (c : codeunit) : bool := (97 <=? c)%N && (c <=? 122)%N.
(** [/[A-Z]/] *)
Definition isUpper (c : codeunit) : bool := (65 <=? c)%N && (c <=? 90)%N.
(** [/[0-9]/] *)
Definition isDigit (c : codeunit) : bool := (48 <=? c)%N && (c <=? 57)%N.

(** The members of the bracket expression of the fourth regular expression,
    in the order they are written there (escapes resolved); 34 is the double
    quote. *)
Definition symbolSet : jsstring :=
  js " `!@#$%^&*()_+-=[]{};':" ++ [34%N] ++ js "\|,.<>/?~".

Definition isSymbol (c : codeunit) : bool :=
  existsb (fun d => (c =? d)%N) symbolSet.

(** [re.test(password)] for a one-class regular expression. *)
Definition test (cls : codeunit -> bool) (password : jsstring) : bool :=
  existsb cls password.

(** The argument of [calculateL] and [calculateN]: a string, or [None] for
    an absent one ([null], [undefined]). *)
Definition falsy (password : option jsstring) : bool :=
  match password with
  | None => true
  | Some [] => true
  | Some (_ :: _) => false
  end.

Definition calculateL (password : option jsstring) : nat :=
  if falsy password then 0
  else match password with
       | Some s => length s
       | None => 0
       end.

Definition calculateN (password : option jsstring) : nat :=
  if falsy password then 0
  else match password with
       | None => 0
       | Some s =>
           let nSize := 0 in
           let nSize := if test isLower s then nSize + 26 else nSize in
           let nSize := if test isUpper s then nSize + 26 else nSize in
           let nSize := if test isDigit s then nSize + 10 else nSize in
           let nSize := if test isSymbol s then nSize + 32 else nSize in
           nSize
       end.

(** The classes with their weights, as a table: the reading of the
    specification ("summing their contribution if present at least once"). *)
Definition classTable : list ((codeunit -> bool) * nat) :=
  [(isLower, 26); (isUpper, 26); (isDigit, 10); (isSymbol, 32)].

Definition contribution (s : jsstring) (e : (codeunit -> bool) * nat) : nat :=
  if test (fst e) s then snd e else 0.

Definition classSum (tbl : list ((codeunit -> bool) * nat)) (s : jsstring) : nat :=
  fold_right (fun e acc => contribution s e + acc) 0 tbl.

(** No code unit of [s] belongs to any of the four classes. *)
Definition unclassified (s : jsstring) : Prop :=
  forall c, In c s ->
    isLower c = false /\ isUpper c = false /\ isDigit c = false /\ isSymbol c = false.

(* ------------------------------------------------------------------ *)
(** ** Numbers *)

Open Scope R_scope.

(** [a < b] and [a >= b] on numbers, as the booleans the program branches on. *)
Definition Rltb (a b : R) : bool := if Rlt_dec a b then true else false.
Definition Rgeb (a b : R) : bool := if Rge_dec a b then true else false.

(** [Math.log2] *)
Definition log2 (x : R) : R := ln x / ln 2.

(** [Math.pow(2, e)] *)
Definition pow2 (e : R) : R := Rpower 2 e.

Definition calculateEntropy (L : R) (N : nat) : R :=
  if Nat.eqb N 0 then 0 else L * log2 (INR N).

Definition checkPasswordStrength (entropy : R) : jsstring :=
  if Rltb entropy 60 then js "Débil"
  else if Rgeb entropy 60 && Rltb entropy 80 then js "Fuerte"
  else js "Muy Fuerte".

Close Scope R_scope.

(* ------------------------------------------------------------------ *)
(** ** Values of a request body *)

#[warnings="-register-all"]
Inductive jsval : Type :=
| JUndefined
| JNull
| JBool (b : bool)
| JNumber (x : R)
| JString (s : jsstring)
| JArray (items : list jsval)
| JObject (fields : list (jsstring * jsval)).

Inductive jstype : Type := TUndefined | TObject | TBoolean | TNumber | TString.

Definition typeof (v : jsval) : jstype :=
  match v with
  | JUndefined => TUndefined
  | JNull | JArray _ | JObject _ => TObject
  | JBool _ => TBoolean
  | JNumber _ => TNumber
  | JString _ => TString
  end.

Definition jstype_eqb (a b : jstype) : bool :=
  match a, b with
  | TUndefined, TUndefined | TObject, TObject | TBoolean, TBoolean
  | TNumber, TNumber | TString, TString => true
  | _, _ => false
  end.

(** [ToBoolean]: what [!v] negates. *)
Definition truthy (v : jsval) : bool :=
  match v with
  | JUndefined | JNull => false
  | JBool b => b
  | JNumber x => if Req_dec_T x 0 then false else true
  | JString s => match s with [] => false | _ :: _ => true end
  | JArray _ | JObject _ => true
  end.

(** [ToBoolean] of a value that is a string or [null]. *)
Definition truthyMatch (m : option jsstring) : bool :=
  match m with
  | None => false
  | Some s => truthy (JString s)
  end.

(** The value of the property [key] of an object read from JSON, whose
    [fields] stand in the order of the text: a key written twice keeps its
    last value, a key that is not there reads as [None]. *)
Fixpoint getField (fields : list (jsstring * jsval)) (key : jsstring) : option jsval :=
  match fields with
  | [] => None
  | (k, v) :: rest =>
      match getField rest key with
      | Some later => Some later
      | None => if jsstring_eqb k key then Some v else None
      end
  end.

(** [const { password } = body]: destructuring [undefined] or [null] throws
    a [TypeError] ([None]); an object gives its [password] property, and
    [undefined] when it has none, as does every other value (an array, a
    string, a number or a boolean has no such property). *)
Definition getPassword (body : jsval) : option jsval :=
  match body with
  | JUndefined | JNull => None
  | JObject fields =>
      match getField fields (js "password") with
      | Some v => Some v
      | None => Some JUndefined
      end
  | JBool _ | JNumber _ | JString _ | JArray _ => Some JUndefined
  end.

(* ------------------------------------------------------------------ *)
(** ** The response of the evaluate route *)

Record Evaluation : Type := {
  length_ : nat;
  keyspace : nat;
  entropy : R;
  strength : jsstring;
  isCommon : bool;
  containedCommonWord : option jsstring
}.

Record SecurityTips : Type := {
  estimatedCrackTime : jsstring;
  recommendation : jsstring
}.

Record EvaluationResult : Type := {
  password : jsstring;
  evaluation : Evaluation;
  security_tips : SecurityTips
}.

Inductive JsonBody : Type :=
| ErrorBody (error : jsstring)
| ResultBody (response : EvaluationResult).

Record HttpResponse : Type := {
  status : nat;
  json : JsonBody
}.

(** What running the listener of the route comes to: it sends a response, or
    it throws before sending one (Express then answers for it, with its
    default error handler and status 500). *)
Inductive JsError : Type := TypeError.

Inductive Outcome : Type :=
| Responded (response : HttpResponse)
| Threw (error : JsError).

(* ------------------------------------------------------------------ *)
(** ** Calls made while a request is handled

    The route is a sequence of calls into [passwordLogic.js] and into the
    corpus.  [Traced A] is a value together with the calls that were made to
    obtain it, in order. *)

Inductive Call : Type :=
| CalculateL
| CalculateN
| CalculateEntropy
| CheckPasswordStrength
| CalculateCrackTime
| CommonPasswordsHas
| FindPartialMatch.

Definition Traced (A : Type) : Type := (A * list Call)%type.

Definition ret {A} (a : A) : Traced A := (a, []).

Definition bind {A B} (m : Traced A) (k : A -> Traced B) : Traced B :=
  let (a, t1) := m in
  let (b, t2) := k a in
  (b, t1 ++ t2).

Definition call {A} (c : Call) (result : A) : Traced A := (result, [c]).

Definition value {A} (m : Traced A) : A := fst m.
Definition calls {A} (m : Traced A) : list Call := snd m.

Notation "x <- m ;; k" := (bind m (fun x => k))
  (at level 61, m at next level, right associativity).
Notation "' p <- m ;; k" := (bind m (fun p => k))
  (at level 61, p pattern, m at next level, right associativity).

(* ------------------------------------------------------------------ *)
(** ** Crack time, partial matches and the route, over the host's built-ins *)

Section Host.

(** [String.prototype.toLowerCase] *)
Variable toLowerCase : jsstring -> jsstring.
(** [Number.prototype.toFixed], with its number of digits *)
Variable toFixed : R -> nat -> jsstring.
(** [Number.prototype.toLocaleString], with its locale tag *)
Variable toLocaleString : R -> jsstring -> jsstring.
(** [parseFloat] *)
Variable parseFloat : jsstring -> R.

Definition calculateCrackTime (entropy : R) : jsstring :=
  let attemptsPerSecond := 1e11%R in
  let totalCombinations := pow2 entropy in
  let seconds := (totalCombinations / attemptsPerSecond)%R in
  if Rltb seconds 1 then js "Instantáneo"
  else if Rltb seconds 60 then toFixed seconds 2 ++ js " segundos"
  else
    let minutes := (seconds / 60)%R in
    if Rltb minutes 60 then toFixed minutes 2 ++ js " minutos"
    else
      let hours := (minutes / 60)%R in
      if Rltb hours 24 then toFixed hours 2 ++ js " horas"
      else
        let days := (hours / 24)%R in
        if Rltb days 365 then toFixed days 2 ++ js " días"
        else
          let years := (days / 365)%R in
          if Rltb years 1e6 then toLocaleString years (js "es-MX") ++ js " años"
          else js "Millones de años".

Definition MIN_LENGTH : nat := 5.

(** The condition of the loop body of [findPartialMatch]. *)
Definition matchesEntry (password commonPass : jsstring) : bool :=
  (MIN_LENGTH <=? length commonPass)%nat
  && includes (toLowerCase password) commonPass.

Fixpoint findPartialMatch (password : jsstring) (commonPasswordsSet : list jsstring)
  : option jsstring :=
  match commonPasswordsSet with
  | [] => None
  | commonPass :: rest =>
      if matchesEntry password commonPass then Some commonPass
      else findPartialMatch password rest
  end.

(** What the specification asks of an entry: at least five code units
    long, and a substring of the lowercased password. *)
Definition qualifies (password entry : jsstring) : Prop :=
  5 <= length entry /\ exists a b, toLowerCase password = a ++ entry ++ b.

(** Every code unit of the lowercased password is outside A to Z: a law
    of [String.prototype.toLowerCase]. *)
Definition lowercases : Prop :=
  forall s c, In c (toLowerCase s) -> isUpper c = false.

(** [commonPasswords.has(password)] *)
Definition has (commonPasswords : list jsstring) (password : jsstring) : bool :=
  existsb (jsstring_eqb password) commonPasswords.

Definition invalidMessage : jsstring :=
  js "La contraseña es requerida y debe ser un texto (string).".

Definition badRequest : HttpResponse :=
  {| status := 400; json := ErrorBody invalidMessage |}.

(** The route once its guard has let the request through. *)
Definition evaluateString (commonPasswords : list jsstring) (password : jsstring)
  : Traced HttpResponse :=
  L <- call CalculateL (calculateL (Some password)) ;;
  N <- call CalculateN (calculateN (Some password)) ;;
  entropy <- call CalculateEntropy (calculateEntropy (INR L) N) ;;
  strength <- call CheckPasswordStrength (checkPasswordStrength entropy) ;;
  crackTime <- call CalculateCrackTime (calculateCrackTime entropy) ;;
  isCommon <- call CommonPasswordsHas (has commonPasswords password) ;;
  ' (finalStrength, recommendation, partialMatch) <-
    (if isCommon : bool then
       ret (js "Muy Débil (Común)",
            js "Esta contraseña es comun entre las contraseñas filtradas. Cambiala por una más segura.",
            None)
     else
       partialMatch <- call FindPartialMatch (findPartialMatch password commonPasswords) ;;
       if truthyMatch partialMatch then
         ret (js "Débil (Predecible)",
              js "Tu contraseña contiene la palabra común '"
                ++ match partialMatch with Some w => w | None => [] end ++ js "'",
              partialMatch)
       else
         ret (strength, js "¡Buena contraseña!", partialMatch)) ;;
  ret {| status := 200;
         json := ResultBody
           {| password := js "***";
              evaluation :=
                {| length_ := L;
                   keyspace := N;
                   entropy := parseFloat (toFixed entropy 2);
                   strength := finalStrength;
                   isCommon := isCommon;
                   containedCommonWord := partialMatch |};
              security_tips :=
                {| estimatedCrackTime :=
                     if isCommon
                     then js "Instantáneo (está en listas de filtraciones)"
                     else crackTime;
                   recommendation := recommendation |} |} |}.

(** The listener of [app.post('/api/v1/password/evaluate', ...)] from its
    guard on, applied to the password its first line read from [req.body]
    ([JUndefined] when the field is absent) and to the corpus loaded so
    far; [postEvaluate] below is the listener from its first line. *)
Definition evaluate (commonPasswords : list jsstring) (password : jsval)
  : Traced HttpResponse :=
  if negb (truthy password) || negb (jstype_eqb (typeof password) TString) then
    ret {| status := 400; json := ErrorBody invalidMessage |}
  else
    match password with
    | JString s => evaluateString commonPasswords s
    | _ => ret {| status := 400; json := ErrorBody invalidMessage |}
    end.

(** The whole listener of [app.post('/api/v1/password/evaluate', ...)],
    applied to [req.body] ([JUndefined] when no body was parsed): the
    destructuring of its first line, which may throw, and then [evaluate] on
    the password it read. *)
Definition postEvaluate (commonPasswords : list jsstring) (body : jsval)
  : Traced Outcome :=
  match getPassword body with
  | None => ret (Threw TypeError)
  | Some password =>
      response <- evaluate commonPasswords password ;;
      ret (Responded response)
  end.

End Host.

(** A case mapping that lowers the letters A to Z and keeps every other code
    unit: [toLowerCase] on strings of ASCII code units. *)
Definition asciiLower (c : codeunit) : codeunit :=
  if isUpper c then (c + 32)%N else c.

Definition asciiToLowerCase (s : jsstring) : jsstring := map asciiLower s.

(* ------------------------------------------------------------------ *)
(** ** Loading the corpus ([index.js], the stream of rows)

    [csv-parser] hands every row of the file to the ['data'] listener as an
    object whose cells are strings; [row.password] is [undefined] in a row
    that has no such cell.  A row is modelled by the value of its
    [row.password]: [Some] string, or [None]. *)

(** [commonPasswords.add(value)]: a [Set] keeps its members in the order of
    their first insertion. *)
Definition add (commonPasswords : list jsstring) (value : jsstring) : list jsstring :=
  if has commonPasswords value then commonPasswords else commonPasswords ++ [value].

(** The ['data'] listener. *)
Definition onData (commonPasswords : list jsstring) (row_password : option jsstring)
  : list jsstring :=
  if truthyMatch row_password then
    match row_password with
    | Some p => add commonPasswords p
    | None => commonPasswords
    end
  else commonPasswords.

(** The corpus after the listener has run on [rows], in order, from the
    corpus [commonPasswords]; the stream starts from [new Set()], the empty
    corpus. *)
Definition loadRows (commonPasswords : list jsstring) (rows : list (option jsstring))
  : list jsstring :=
  fold_left onData rows commonPasswords.

(** The sums [calculateN] can return. *)
Definition keyspaceSizes : list nat := [0; 10; 26; 32; 36; 42; 52; 58; 62; 68; 84; 94].

(* ================================================================== *)
(** * Properties *)

(* ------------------------------------------------------------------ *)
(** ** Strings *)

(** [js] on literals of the sources: "é" and "ñ" are one code unit each. *)
Example js_literals :
  js "Fuerte" = [70; 117; 101; 114; 116; 101]%N
  /\ js "Débil" = [68; 233; 98; 105; 108]%N
  /\ js "años" = [97; 241; 111; 115]%N
  /\ length (js "¡Buena contraseña!") = 18.
Proof. repeat split. Qed.

Lemma jsstring_eqb_eq (a b : jsstring) : jsstring_eqb a b = true <-> a = b.
Proof.
  revert b; induction a as [|x a IH]; intros [|y b]; simpl;
    try (split; [discriminate | congruence]); try tauto.
  rewrite andb_true_iff, N.eqb_eq, IH.
  split; [intros [-> ->]; reflexivity | intros H; inversion H; auto].
Qed.

Lemma startsWith_spec (s t : jsstring) :
  startsWith s t = true <-> exists r, s = t ++ r.
Proof.
  revert s; induction t as [|y t IH]; intros s; simpl.
  - split; [exists s; reflexivity | reflexivity].
  - destruct s as [|x s].
    + split; [discriminate | intros [r H]; discriminate].
    + rewrite andb_true_iff, N.eqb_eq, IH. split.
      * intros [-> [r ->]]. exists r. reflexivity.
      * intros [r H]. inversion H; subst. split; [reflexivity | eauto].
Qed.

(** [includes] is substring containment. *)
Lemma includes_spec (s t : jsstring) :
  includes s t = true <-> exists a b, s = a ++ t ++ b.
Proof.
  induction s as [|x s IH].
  - simpl. rewrite orb_false_r, startsWith_spec. split.
    + intros [r H]. exists [], r. exact H.
    + intros [a [b H]]. destruct a as [|? a]; [eauto | discriminate].
  - cbn [includes]. rewrite orb_true_iff, startsWith_spec, IH. split.
    + intros [[r H] | [a [b H]]].
      * exists [], r. exact H.
      * exists (x :: a), b. simpl. congruence.
    + intros [[|y a] [b H]].
      * left. exists b. exact H.
      * right. inversion H; subst. eauto.
Qed.

Lemma includes_In (s t : jsstring) (c : codeunit) :
  includes s t = true -> In c t -> In c s.
Proof.
  intros H Hc. apply includes_spec in H as [a [b ->]].
  apply in_or_app. right. apply in_or_app. left. exact Hc.
Qed.

Lemma test_spec (cls : codeunit -> bool) (s : jsstring) :
  test cls s = true <-> exists c, In c s /\ cls c = true.
Proof. apply existsb_exists. Qed.

Lemma isSymbol_spec (c : codeunit) : isSymbol c = true <-> In c symbolSet.
Proof.
  unfold isSymbol. rewrite existsb_exists. split.
  - intros [d [Hd E]]. apply N.eqb_eq in E. subst. exact Hd.
  - intros H. exists c. split; [exact H | apply N.eqb_refl].
Qed.

(* ------------------------------------------------------------------ *)
(** ** Keyspace size *)

Lemma classSum_perm (tbl tbl' : list ((codeunit -> bool) * nat)) (s : jsstring) :
  Permutation tbl tbl' -> classSum tbl s = classSum tbl' s.
Proof.
  unfold classSum. induction 1; simpl; lia.
Qed.

Lemma calculateN_classTable (s : jsstring) :
  s <> [] -> calculateN (Some s) = classSum classTable s.
Proof.
  intros Hne. unfold calculateN, classSum, classTable, contribution.
  replace (falsy (Some s)) with false by (destruct s; [congruence | reflexivity]).
  cbn [fold_right fst snd].
  destruct (test isLower s), (test isUpper s), (test isDigit s), (test isSymbol s);
    reflexivity.
Qed.

(** The bracket expression holds the space and the 32 punctuation marks of
    ASCII, each once. *)
Lemma symbolSet_members :
  symbolSet
  = [32; 96; 33; 64; 35; 36; 37; 94; 38; 42; 40; 41; 95; 43; 45; 61; 91; 93;
     123; 125; 59; 39; 58; 34; 92; 124; 44; 46; 60; 62; 47; 63; 126]%N
  /\ length symbolSet = 33
  /\ NoDup symbolSet.
Proof.
  split; [reflexivity |]. split; [reflexivity |].
  change symbolSet with
    [32; 96; 33; 64; 35; 36; 37; 94; 38; 42; 40; 41; 95; 43; 45; 61; 91; 93;
     123; 125; 59; 39; 58; 34; 92; 124; 44; 46; 60; 62; 47; 63; 126]%N.
  repeat (constructor; [cbn [In]; intuition discriminate |]).
  constructor.
Qed.

(** The four tests are independent: every combination of outcomes is the
    outcome of some non-empty password. *)
Lemma character_classes_independent (lower upper digit symbol : bool) :
  exists s,
    s <> []
    /\ test isLower s = lower /\ test isUpper s = upper
    /\ test isDigit s = digit /\ test isSymbol s = symbol.
Proof.
  exists ((if lower then js "a" else []) ++ (if upper then js "A" else [])
          ++ (if digit then js "0" else []) ++ (if symbol then js "!" else [])
          ++ js "ñ").
  destruct lower, upper, digit, symbol; (split; [discriminate | repeat split]).
Qed.

Example calculateN_examples :
  calculateN None = 0
  /\ calculateN (Some []) = 0
  /\ calculateN (Some (js "7")) = 10
  /\ calculateN (Some (js "abc")) = 26
  /\ calculateN (Some (js "abc123")) = 36
  /\ calculateN (Some (js "Abc 123")) = 94
  /\ calculateN (Some (js "ñ")) = 0
  /\ calculateN (Some [9%N]) = 0
  /\ calculateL (Some (js "contraseña")) = 10.
Proof. repeat split. Qed.

(** C1. For a non-empty password, [calculateN] is the sum of 26, 26, 10 and
    32 over exactly the classes (lowercase, uppercase, digit, symbol of the
    fixed set) of which the password holds at least one code unit; the sum is
    the same in whatever order the four classes are tested, and it is 94 when
    all four are present. *)
Theorem calculateN_sums_present_classes (s : jsstring) :
  s <> [] ->
  calculateN (Some s)
    = (if test isLower s then 26 else 0) + (if test isUpper s then 26 else 0)
      + (if test isDigit s then 10 else 0) + (if test isSymbol s then 32 else 0)
  /\ (forall cls, test cls s = true <-> exists c, In c s /\ cls c = true)
  /\ (forall c, isSymbol c = true <-> In c symbolSet)
  /\ (forall tbl, Permutation classTable tbl -> calculateN (Some s) = classSum tbl s)
  /\ (test isLower s = true -> test isUpper s = true ->
      test isDigit s = true -> test isSymbol s = true ->
      calculateN (Some s) = 94).
Proof.
  intros Hne. pose proof (calculateN_classTable Hne) as E.
  split; [| split; [| split; [| split]]].
  - rewrite E. unfold classSum, classTable, contribution.
    cbn [fold_right fst snd]. lia.
  - intros cls. apply test_spec.
  - apply isSymbol_spec.
  - intros tbl P. rewrite E. apply classSum_perm, P.
  - intros H1 H2 H3 H4. rewrite E.
    unfold classSum, classTable, contribution. cbn [fold_right fst snd].
    rewrite H1, H2, H3, H4. reflexivity.
Qed.

Lemma calculateN_sums_present_classes_witness :
  js "MyP@ssw0rd!" <> []
  /\ calculateN (Some (js "MyP@ssw0rd!")) = 94.
Proof.
  split; [discriminate |].
  apply (calculateN_sums_present_classes (s := js "MyP@ssw0rd!"));
    [discriminate | reflexivity ..].
Defined.

Lemma test_false (cls : codeunit -> bool) (s : jsstring) :
  test cls s = false <-> forall c, In c s -> cls c = false.
Proof.
  unfold test. split.
  - intros H c Hc. destruct (cls c) eqn:E; [|reflexivity].
    assert (existsb cls s = true) by (apply existsb_exists; eauto). congruence.
  - intros H. destruct (existsb cls s) eqn:E; [|reflexivity].
    apply existsb_exists in E as [c [Hc Hcls]]. rewrite (H c Hc) in Hcls. discriminate.
Qed.

(** The password "ñ" (one code unit, 241) is not empty and its keyspace size
    is 0: a keyspace of 0 does not imply an empty or absent input. *)
Lemma calculateN_zero_nonempty_counterexample :
  (falsy (Some (js "ñ")) = false /\ calculateN (Some (js "ñ")) = 0)
  /\ ~ (forall p : option jsstring, calculateN p = 0 -> falsy p = true)
  /\ ~ (forall s : jsstring, s <> [] -> 0 < calculateN (Some s)).
Proof.
  split; [split; reflexivity |]. split.
  - intros H. specialize (H (Some (js "ñ")) eq_refl). discriminate H.
  - intros H. specialize (H (js "ñ")). cbv in H.
    assert (A : 0 < 0) by (apply H; discriminate). inversion A.
Qed.

(** C7, as the code has it. [calculateN] is 0 exactly when the input is
    absent or empty, or is a string none of whose code units belongs to one
    of the four classes; a password with a code unit of one of the classes
    has a keyspace size of at least 10. *)
Theorem calculateN_zero_iff (p : option jsstring) :
  (calculateN p = 0 <->
     falsy p = true \/ exists s, p = Some s /\ unclassified s)
  /\ ((exists s c, p = Some s /\ In c s /\
         (isLower c || isUpper c || isDigit c || isSymbol c) = true) ->
      10 <= calculateN p).
Proof.
  destruct p as [[|x s]|].
  - split; [split; [left; reflexivity | reflexivity] |].
    intros [s [c [E [Hc _]]]]. inversion E; subst. destruct Hc.
  - assert (D : forall cls, test cls (x :: s) = false \/ test cls (x :: s) = true)
      by (intros cls; destruct (test cls (x :: s)); auto).
    unfold calculateN, falsy. split.
    + split.
      * intros H. right. exists (x :: s). split; [reflexivity |].
        destruct (test isLower (x :: s)) eqn:E1, (test isUpper (x :: s)) eqn:E2,
          (test isDigit (x :: s)) eqn:E3, (test isSymbol (x :: s)) eqn:E4;
          try discriminate H.
        intros c Hc. repeat split;
          [ apply (proj1 (test_false _ _) E1) | apply (proj1 (test_false _ _) E2)
          | apply (proj1 (test_false _ _) E3) | apply (proj1 (test_false _ _) E4) ];
          exact Hc.
      * intros [H | [s' [E U]]]; [discriminate H |].
        inversion E; subst s'.
        assert (T : forall cls, (forall c, In c (x :: s) -> cls c = false) ->
                      test cls (x :: s) = false)
          by (intros cls; apply test_false).
        rewrite (T isLower), (T isUpper), (T isDigit), (T isSymbol);
          [reflexivity | intros c Hc; apply (U c Hc) ..].
    + intros [s' [c [E [Hc Hcls]]]]. inversion E; subst s'.
      assert (T : forall cls, cls c = true -> test cls (x :: s) = true)
        by (intros cls Hcl; apply test_spec; eauto).
      repeat rewrite orb_true_iff in Hcls.
      destruct Hcls as [[[Hl | Hu] | Hd] | Hs];
        [ rewrite (T isLower Hl) | rewrite (T isUpper Hu)
        | rewrite (T isDigit Hd) | rewrite (T isSymbol Hs) ];
        destruct (test isLower (x :: s)), (test isUpper (x :: s)),
          (test isDigit (x :: s)), (test isSymbol (x :: s)); simpl; lia.
  - split; [split; [left; reflexivity | reflexivity] |].
    intros [s [c [E _]]]. discriminate E.
Qed.

(* ------------------------------------------------------------------ *)
(** ** Entropy *)

Open Scope R_scope.

Lemma ln_2_pos : 0 < ln 2.
Proof. rewrite <- ln_1. apply ln_increasing; lra. Qed.

Lemma log2_nonneg (x : R) : 1 <= x -> 0 <= log2 x.
Proof.
  intros Hx. unfold log2. apply Rmult_le_pos.
  - rewrite <- ln_1. destruct Hx as [Hx | <-]; [left; apply ln_increasing; lra | right; reflexivity].
  - left. apply Rinv_0_lt_compat, ln_2_pos.
Qed.

Lemma log2_le (x y : R) : 0 < x -> x <= y -> log2 x <= log2 y.
Proof.
  intros H0 Hxy. unfold log2, Rdiv. apply Rmult_le_compat_r.
  - left. apply Rinv_0_lt_compat, ln_2_pos.
  - destruct Hxy as [Hxy | <-]; [left; apply ln_increasing; assumption | right; reflexivity].
Qed.

(** [pow2] undoes [log2]: [log2] is the logarithm in base 2. *)
Lemma pow2_log2 (x : R) : 0 < x -> pow2 (log2 x) = x.
Proof.
  intros Hx. unfold pow2, log2, Rpower.
  replace (ln x / ln 2 * ln 2) with (ln x)
    by (field; apply Rgt_not_eq, ln_2_pos).
  apply exp_ln, Hx.
Qed.

Lemma pow2_nat (n : nat) : pow2 (INR n) = 2 ^ n.
Proof. unfold pow2. apply Rpower_pow. lra. Qed.

Lemma pow2_Z (z : Z) : (0 <= z)%Z -> pow2 (IZR z) = IZR (2 ^ z).
Proof.
  intros Hz. rewrite <- (Z2Nat.id z Hz) at 1 2.
  rewrite <- INR_IZR_INZ, pow2_nat, <- pow_IZR. reflexivity.
Qed.

Lemma INR_ge_1 (N : nat) : N <> 0%nat -> 1 <= INR N.
Proof.
  intros H. change 1 with (INR 1). apply le_INR. lia.
Qed.

Lemma calculateEntropy_zero (L : R) : calculateEntropy L 0 = 0.
Proof. reflexivity. Qed.

Lemma calculateEntropy_pos (L : R) (N : nat) :
  N <> 0%nat -> calculateEntropy L N = L * log2 (INR N).
Proof.
  intros H. unfold calculateEntropy.
  destruct (Nat.eqb_spec N 0); [contradiction | reflexivity].
Qed.

Lemma calculateEntropy_nonneg (L : R) (N : nat) :
  0 <= L -> 0 <= calculateEntropy L N.
Proof.
  intros HL. destruct (Nat.eq_dec N 0) as [-> | HN].
  - rewrite calculateEntropy_zero. lra.
  - rewrite (calculateEntropy_pos L HN).
    apply Rmult_le_pos; [exact HL | apply log2_nonneg, INR_ge_1, HN].
Qed.

(** C2. [calculateEntropy L N] is 0 when [N] is 0 and [L * log2 N] otherwise;
    for [L >= 0] and [N >= 1] it is not negative.  It is a function: every
    pair has a result and the result depends on the pair only. *)
Theorem calculateEntropy_spec (L : R) (N : nat) :
  (N = 0%nat -> calculateEntropy L N = 0)
  /\ (N <> 0%nat -> calculateEntropy L N = L * log2 (INR N))
  /\ (0 <= L -> (1 <= N)%nat -> 0 <= calculateEntropy L N)
  /\ (exists E : R, calculateEntropy L N = E).
Proof.
  split; [| split; [| split]].
  - intros ->. apply calculateEntropy_zero.
  - apply calculateEntropy_pos.
  - intros HL _. apply calculateEntropy_nonneg, HL.
  - eexists. reflexivity.
Qed.

(** C8. [calculateEntropy] does not decrease when the length grows and the
    keyspace size is fixed, nor when the keyspace size grows and the length,
    not negative, is fixed. *)
Theorem calculateEntropy_monotone :
  (forall (N : nat) (L1 L2 : R),
      L1 <= L2 -> calculateEntropy L1 N <= calculateEntropy L2 N)
  /\ (forall (L : R) (N1 N2 : nat),
      0 <= L -> (N1 <= N2)%nat -> calculateEntropy L N1 <= calculateEntropy L N2).
Proof.
  split.
  - intros N L1 L2 HL. destruct (Nat.eq_dec N 0) as [-> | HN].
    + rewrite !calculateEntropy_zero. lra.
    + rewrite !(calculateEntropy_pos _ HN).
      apply Rmult_le_compat_r; [apply log2_nonneg, INR_ge_1, HN | exact HL].
  - intros L N1 N2 HL HN. destruct (Nat.eq_dec N1 0) as [-> | H1].
    + rewrite calculateEntropy_zero. apply calculateEntropy_nonneg, HL.
    + assert (H2 : N2 <> 0%nat) by lia.
      rewrite (calculateEntropy_pos _ H1), (calculateEntropy_pos _ H2).
      apply Rmult_le_compat_l; [exact HL |].
      apply log2_le; [| apply le_INR, HN].
      apply Rlt_le_trans with 1; [lra | apply INR_ge_1, H1].
Qed.

(** The entropy is the logarithm of the number of candidate passwords:
    [2 ^ E = N ^ L] for a password of [L] code units over [N] symbols. *)
Lemma pow2_calculateEntropy (L N : nat) :
  N <> 0%nat -> pow2 (calculateEntropy (INR L) N) = INR N ^ L.
Proof.
  intros HN. rewrite (calculateEntropy_pos _ HN).
  assert (HP : 0 < INR N) by (apply Rlt_le_trans with 1; [lra | apply INR_ge_1, HN]).
  rewrite <- (Rpower_pow L (INR N) HP).
  unfold pow2, log2, Rpower. f_equal. field. apply Rgt_not_eq, ln_2_pos.
Qed.

(* ------------------------------------------------------------------ *)
(** ** Strength *)

Lemma Rltb_true (a b : R) : Rltb a b = true <-> a < b.
Proof. unfold Rltb. destruct (Rlt_dec a b); split; (congruence || tauto). Qed.

Lemma Rltb_false (a b : R) : Rltb a b = false <-> b <= a.
Proof.
  unfold Rltb. destruct (Rlt_dec a b); split; try congruence; try lra.
Qed.

Lemma Rgeb_true (a b : R) : Rgeb a b = true <-> b <= a.
Proof. unfold Rgeb. destruct (Rge_dec a b); split; try congruence; try lra. Qed.

Lemma checkPasswordStrength_below_60 (x : R) :
  x < 60 -> checkPasswordStrength x = js "Débil".
Proof.
  intros H. unfold checkPasswordStrength.
  rewrite (proj2 (Rltb_true x 60) H). reflexivity.
Qed.

Lemma checkPasswordStrength_60_to_80 (x : R) :
  60 <= x < 80 -> checkPasswordStrength x = js "Fuerte".
Proof.
  intros [H1 H2]. unfold checkPasswordStrength.
  rewrite (proj2 (Rltb_false x 60) H1), (proj2 (Rgeb_true x 60) H1),
    (proj2 (Rltb_true x 80) H2). reflexivity.
Qed.

Lemma checkPasswordStrength_from_80 (x : R) :
  80 <= x -> checkPasswordStrength x = js "Muy Fuerte".
Proof.
  intros H. unfold checkPasswordStrength.
  rewrite (proj2 (Rltb_false x 60)) by lra.
  rewrite (proj2 (Rltb_false x 80) H), andb_false_r. reflexivity.
Qed.

(** C3. [checkPasswordStrength] answers "Débil" below 60, "Fuerte" from 60
    up to but not including 80, and "Muy Fuerte" from 80 on; 60 and 80
    themselves fall in the upper of their two buckets. *)
Theorem checkPasswordStrength_thresholds (E : R) :
  (E < 60 -> checkPasswordStrength E = js "Débil")
  /\ (60 <= E < 80 -> checkPasswordStrength E = js "Fuerte")
  /\ (80 <= E -> checkPasswordStrength E = js "Muy Fuerte")
  /\ checkPasswordStrength 60 = js "Fuerte"
  /\ checkPasswordStrength 80 = js "Muy Fuerte".
Proof.
  repeat split.
  - apply checkPasswordStrength_below_60.
  - apply checkPasswordStrength_60_to_80.
  - apply checkPasswordStrength_from_80.
  - apply checkPasswordStrength_60_to_80. lra.
  - apply checkPasswordStrength_from_80. lra.
Qed.

(** The boundary values of the specification's test list. *)
Example checkPasswordStrength_boundaries :
  checkPasswordStrength 59.999 = js "Débil"
  /\ checkPasswordStrength 60 = js "Fuerte"
  /\ checkPasswordStrength 79.999 = js "Fuerte"
  /\ checkPasswordStrength 80 = js "Muy Fuerte".
Proof.
  repeat split.
  - apply checkPasswordStrength_below_60. lra.
  - apply checkPasswordStrength_60_to_80. lra.
  - apply checkPasswordStrength_60_to_80. lra.
  - apply checkPasswordStrength_from_80. lra.
Qed.

(** The three labels are three different strings. *)
Lemma strength_labels_distinct :
  js "Débil" <> js "Fuerte" /\ js "Fuerte" <> js "Muy Fuerte"
  /\ js "Débil" <> js "Muy Fuerte".
Proof. repeat split; discriminate. Qed.

Close Scope R_scope.

(* ------------------------------------------------------------------ *)
(** ** Crack time *)

Section CrackTime.

Variable toFixed : R -> nat -> jsstring.
Variable toLocaleString : R -> jsstring -> jsstring.

Local Abbreviation crackTime := (calculateCrackTime toFixed toLocaleString).

Open Scope R_scope.

(** C4. With [seconds = 2^E / 10^11], [calculateCrackTime] answers by the
    first of its tests, taken in order, that holds: [seconds < 1],
    "Instantáneo"; [seconds < 60], the seconds with two decimals;
    [minutes = seconds / 60 < 60], the minutes with two decimals;
    [hours = minutes / 60 < 24], the hours with two decimals;
    [days = hours / 24 < 365], the days with two decimals;
    [years = days / 365 < 10^6], the years in the grouping of the locale;
    and "Millones de años", with no number, when none holds. *)
Theorem calculateCrackTime_buckets (E : R) :
  let seconds := pow2 E / 1e11 in
  let minutes := seconds / 60 in
  let hours := minutes / 60 in
  let days := hours / 24 in
  let years := days / 365 in
  (seconds < 1 -> crackTime E = js "Instantáneo")
  /\ (~ seconds < 1 -> seconds < 60 ->
      crackTime E = toFixed seconds 2 ++ js " segundos")
  /\ (~ seconds < 1 -> ~ seconds < 60 -> minutes < 60 ->
      crackTime E = toFixed minutes 2 ++ js " minutos")
  /\ (~ seconds < 1 -> ~ seconds < 60 -> ~ minutes < 60 -> hours < 24 ->
      crackTime E = toFixed hours 2 ++ js " horas")
  /\ (~ seconds < 1 -> ~ seconds < 60 -> ~ minutes < 60 -> ~ hours < 24 ->
      days < 365 ->
      crackTime E = toFixed days 2 ++ js " días")
  /\ (~ seconds < 1 -> ~ seconds < 60 -> ~ minutes < 60 -> ~ hours < 24 ->
      ~ days < 365 -> years < 1e6 ->
      crackTime E = toLocaleString years (js "es-MX") ++ js " años")
  /\ (~ seconds < 1 -> ~ seconds < 60 -> ~ minutes < 60 -> ~ hours < 24 ->
      ~ days < 365 -> ~ years < 1e6 ->
      crackTime E = js "Millones de años").
Proof.
  intros seconds minutes hours days years.
  assert (T : forall a b, a < b -> Rltb a b = true)
    by (intros a b; apply Rltb_true).
  assert (F : forall a b, ~ a < b -> Rltb a b = false)
    by (intros a b H; apply Rltb_false; lra).
  unfold calculateCrackTime.
  fold seconds. fold minutes. fold hours. fold days. fold years.
  repeat split; intros;
    repeat match goal with
           | H : ~ _ < _ |- _ => rewrite (F _ _ H); clear H
           | H : _ < _ |- _ => rewrite (T _ _ H); clear H
           end; reflexivity.
Qed.

(** Every bucket is reached: the answers for entropies of 36, 37, 43, 49,
    54, 62 and 82 bits. *)
Example calculateCrackTime_reaches_every_bucket :
  crackTime 36 = js "Instantáneo"
  /\ crackTime 37 = toFixed (pow2 37 / 1e11) 2 ++ js " segundos"
  /\ crackTime 43 = toFixed (pow2 43 / 1e11 / 60) 2 ++ js " minutos"
  /\ crackTime 49 = toFixed (pow2 49 / 1e11 / 60 / 60) 2 ++ js " horas"
  /\ crackTime 54 = toFixed (pow2 54 / 1e11 / 60 / 60 / 24) 2 ++ js " días"
  /\ crackTime 62
     = toLocaleString (pow2 62 / 1e11 / 60 / 60 / 24 / 365) (js "es-MX") ++ js " años"
  /\ crackTime 82 = js "Millones de años".
Proof.
  assert (T : forall a b, a < b -> Rltb a b = true)
    by (intros a b; apply Rltb_true).
  assert (F : forall a b, b <= a -> Rltb a b = false)
    by (intros a b; apply Rltb_false).
  unfold calculateCrackTime.
  rewrite (@pow2_Z 36%Z), (@pow2_Z 37%Z), (@pow2_Z 43%Z), (@pow2_Z 49%Z),
    (@pow2_Z 54%Z), (@pow2_Z 62%Z), (@pow2_Z 82%Z) by lia.
  vm_compute Z.pow.
  repeat split; repeat (first [rewrite T by lra | rewrite F by lra]); reflexivity.
Qed.

End CrackTime.

(* ------------------------------------------------------------------ *)
(** ** Partial matches *)

Lemma asciiToLowerCase_no_upper (s : jsstring) (c : codeunit) :
  In c (asciiToLowerCase s) -> isUpper c = false.
Proof.
  unfold asciiToLowerCase. rewrite in_map_iff. intros [d [<- _]].
  unfold asciiLower. destruct (isUpper d) eqn:E.
  - unfold isUpper in *. apply andb_true_iff in E as [E1 E2].
    apply N.leb_le in E1, E2. apply andb_false_iff. right.
    apply N.leb_gt. lia.
  - exact E.
Qed.

Section PartialMatch.

Variable toLowerCase : jsstring -> jsstring.

Local Abbreviation findPartialMatch' := (findPartialMatch toLowerCase).

Lemma matchesEntry_spec (password entry : jsstring) :
  matchesEntry toLowerCase password entry = true <-> qualifies toLowerCase password entry.
Proof.
  unfold matchesEntry, qualifies, MIN_LENGTH.
  rewrite andb_true_iff, Nat.leb_le, includes_spec. reflexivity.
Qed.

Lemma matchesEntry_false (password entry : jsstring) :
  matchesEntry toLowerCase password entry = false <-> ~ qualifies toLowerCase password entry.
Proof.
  rewrite <- matchesEntry_spec.
  destruct (matchesEntry toLowerCase password entry); split; congruence.
Qed.

Lemma findPartialMatch_Some (password : jsstring) (corpus : list jsstring) (w : jsstring) :
  findPartialMatch' password corpus = Some w <->
  exists pre post,
    corpus = pre ++ w :: post
    /\ qualifies toLowerCase password w
    /\ forall x, In x pre -> ~ qualifies toLowerCase password x.
Proof.
  induction corpus as [|e corpus IH]; simpl.
  - split; [discriminate |].
    intros [pre [post [H _]]]. destruct pre; discriminate H.
  - destruct (matchesEntry toLowerCase password e) eqn:M.
    + split.
      * intros H. inversion H; subst e. exists [], corpus.
        split; [reflexivity |]. split; [apply matchesEntry_spec, M |].
        intros x [].
      * intros [[|x pre] [post [H [Q NQ]]]].
        -- inversion H. reflexivity.
        -- inversion H; subst x. exfalso.
           apply (NQ e (or_introl eq_refl)), matchesEntry_spec, M.
    + rewrite IH. split.
      * intros [pre [post [-> [Q NQ]]]]. exists (e :: pre), post.
        split; [reflexivity |]. split; [exact Q |].
        intros x [<- | Hx]; [apply matchesEntry_false, M | apply NQ, Hx].
      * intros [[|x pre] [post [H [Q NQ]]]].
        -- inversion H; subst e. apply matchesEntry_spec in Q. congruence.
        -- inversion H; subst. exists pre, post.
           split; [reflexivity |]. split; [exact Q |].
           intros y Hy. apply NQ. right. exact Hy.
Qed.

Lemma findPartialMatch_None (password : jsstring) (corpus : list jsstring) :
  findPartialMatch' password corpus = None <->
  forall x, In x corpus -> ~ qualifies toLowerCase password x.
Proof.
  induction corpus as [|e corpus IH]; simpl.
  - split; [intros _ x [] | reflexivity].
  - destruct (matchesEntry toLowerCase password e) eqn:M.
    + split; [discriminate |]. intros H. exfalso.
      apply (H e (or_introl eq_refl)), matchesEntry_spec, M.
    + rewrite IH. split.
      * intros H x [<- | Hx]; [apply matchesEntry_false, M | apply H, Hx].
      * intros H x Hx. apply H. right. exact Hx.
Qed.

(** The scan does not look past the first entry that matches. *)
Lemma findPartialMatch_stops (password : jsstring) (pre : list jsstring)
      (w : jsstring) (post : list jsstring) :
  qualifies toLowerCase password w ->
  (forall x, In x pre -> ~ qualifies toLowerCase password x) ->
  findPartialMatch' password (pre ++ w :: post) = Some w.
Proof.
  intros Q NQ. apply findPartialMatch_Some. exists pre, post. auto.
Qed.

Lemma findPartialMatch_long (password : jsstring) (corpus : list jsstring) (w : jsstring) :
  findPartialMatch' password corpus = Some w -> 5 <= length w.
Proof.
  intros H. apply findPartialMatch_Some in H as [_ [_ [_ [[H _] _]]]]. exact H.
Qed.

(** C6. [findPartialMatch] returns the first entry of the corpus, in its
    iteration order, that is at least five code units long and a substring
    of the lowercased password; what follows that entry in the corpus has
    no part in the result; an entry of four code units or fewer is never
    returned; and the result is [null] exactly when no entry qualifies, as
    in an empty corpus. *)
Theorem findPartialMatch_first_qualifying (password : jsstring) (corpus : list jsstring) :
  (forall w,
      findPartialMatch' password corpus = Some w <->
      exists pre post,
        corpus = pre ++ w :: post
        /\ qualifies toLowerCase password w
        /\ forall x, In x pre -> ~ qualifies toLowerCase password x)
  /\ (forall pre w post post',
      corpus = pre ++ w :: post ->
      qualifies toLowerCase password w ->
      (forall x, In x pre -> ~ qualifies toLowerCase password x) ->
      findPartialMatch' password (pre ++ w :: post') = Some w)
  /\ (forall w, length w <= 4 -> findPartialMatch' password corpus <> Some w)
  /\ (findPartialMatch' password corpus = None <->
      forall x, In x corpus -> ~ qualifies toLowerCase password x)
  /\ findPartialMatch' password [] = None.
Proof.
  split; [| split; [| split; [| split]]].
  - intros w. apply findPartialMatch_Some.
  - intros pre w post post' _ Q NQ. apply findPartialMatch_stops; assumption.
  - intros w Hw H. apply findPartialMatch_long in H. lia.
  - apply findPartialMatch_None.
  - reflexivity.
Qed.

(** C10. An entry of the corpus that holds an ASCII uppercase letter is
    never returned by [findPartialMatch]: the password alone is lowercased,
    the entry is searched for as it is. *)
Theorem findPartialMatch_never_uppercase_entry
        (password : jsstring) (corpus : list jsstring) (w : jsstring) :
  lowercases toLowerCase ->
  (exists c, In c w /\ isUpper c = true) ->
  findPartialMatch' password corpus <> Some w.
Proof.
  intros Low [c [Hc Up]] H.
  apply findPartialMatch_Some in H as [_ [_ [_ [[_ [a [b E]]] _]]]].
  assert (In c (toLowerCase password)).
  { rewrite E. apply in_or_app. right. apply in_or_app. left. exact Hc. }
  rewrite (Low _ _ H) in Up. discriminate Up.
Qed.

End PartialMatch.

Lemma findPartialMatch_never_uppercase_entry_witness :
  lowercases asciiToLowerCase
  /\ (exists c, In c (js "Password") /\ isUpper c = true)
  /\ findPartialMatch asciiToLowerCase (js "MiPassword123") [js "Password"; js "qwerty"]
     <> Some (js "Password").
Proof.
  assert (Low : lowercases asciiToLowerCase) by exact asciiToLowerCase_no_upper.
  assert (Up : exists c, In c (js "Password") /\ isUpper c = true)
    by (exists 80%N; split; [left; reflexivity | reflexivity]).
  split; [exact Low |]. split; [exact Up |].
  exact (@findPartialMatch_never_uppercase_entry asciiToLowerCase
           (js "MiPassword123") [js "Password"; js "qwerty"] (js "Password") Low Up).
Defined.

(** The examples of the specification's test list. *)
Example findPartialMatch_examples :
  findPartialMatch asciiToLowerCase
    (js "MySecurePassword123Contains-password-inside")
    [js "1234"; js "password"; js "secure"] = Some (js "password")
  /\ findPartialMatch asciiToLowerCase (js "abc12345") [js "1234"; js "12345"]
     = Some (js "12345")
  /\ findPartialMatch asciiToLowerCase (js "abc1234") [js "1234"] = None
  /\ findPartialMatch asciiToLowerCase (js "MiPassword123") [js "Password"] = None.
Proof. repeat split. Qed.

(* ------------------------------------------------------------------ *)
(** ** The evaluate route *)

Lemma has_spec (commonPasswords : list jsstring) (s : jsstring) :
  has commonPasswords s = true <-> In s commonPasswords.
Proof.
  unfold has. rewrite existsb_exists. split.
  - intros [x [Hx E]]. apply jsstring_eqb_eq in E. subst. exact Hx.
  - intros H. exists s. split; [exact H | apply jsstring_eqb_eq; reflexivity].
Qed.

Section Route.

Variable toLowerCase : jsstring -> jsstring.
Variable toFixed : R -> nat -> jsstring.
Variable toLocaleString : R -> jsstring -> jsstring.
Variable parseFloat : jsstring -> R.

Local Abbreviation evaluate' :=
  (evaluate toLowerCase toFixed toLocaleString parseFloat).
Local Abbreviation postEvaluate' :=
  (postEvaluate toLowerCase toFixed toLocaleString parseFloat).
Local Abbreviation evaluateString' :=
  (evaluateString toLowerCase toFixed toLocaleString parseFloat).

(** The guard lets through the non-empty strings and nothing else. *)
Lemma evaluate_guard (commonPasswords : list jsstring) (v : jsval) :
  (exists c s, v = JString (c :: s)
               /\ evaluate' commonPasswords v = evaluateString' commonPasswords (c :: s))
  \/ ((forall c s, v <> JString (c :: s))
      /\ evaluate' commonPasswords v = (badRequest, [])).
Proof.
  destruct v as [ | | b | x | [|c s] | items | fields];
    try (right; split; [intros; discriminate | reflexivity]).
  - right. split; [intros; discriminate |].
    unfold evaluate. cbn [typeof jstype_eqb negb]. rewrite orb_true_r. reflexivity.
  - right. split; [intros; discriminate |].
    unfold evaluate. cbn [typeof jstype_eqb negb]. rewrite orb_true_r. reflexivity.
  - left. exists c, s. split; reflexivity.
Qed.

(** C9. A request with no parsed body has no password field, and it is not
    answered with the 400 of the guard: the destructuring of [req.body] on
    the first line of the listener throws a [TypeError], so the listener
    sends no response at all, and the guard that would have answered 400 is
    never reached.  No call is made. *)
Theorem postEvaluate_without_body_throws (commonPasswords : list jsstring) :
  let out := postEvaluate' commonPasswords JUndefined in
  value out = Threw TypeError
  /\ calls out = []
  /\ (forall response, value out <> Responded response)
  /\ value (evaluate' commonPasswords JUndefined)
     = {| status := 400; json := ErrorBody invalidMessage |}.
Proof.
  cbv zeta. unfold postEvaluate. cbn [getPassword].
  split; [reflexivity |]. split; [reflexivity |].
  split; [intros response H; discriminate H | reflexivity].
Qed.

(** The calls of a request that passes the guard. *)
Lemma evaluateString_calls (commonPasswords : list jsstring) (s : jsstring) :
  calls (evaluateString' commonPasswords s)
  = [CalculateL; CalculateN; CalculateEntropy; CheckPasswordStrength;
     CalculateCrackTime; CommonPasswordsHas]
    ++ (if has commonPasswords s then [] else [FindPartialMatch]).
Proof.
  unfold evaluateString, bind, call, ret, calls.
  destruct (has commonPasswords s); [reflexivity |].
  destruct (truthyMatch (findPartialMatch toLowerCase s commonPasswords));
    reflexivity.
Qed.

Lemma evaluate_nonempty_string (commonPasswords : list jsstring) (s : jsstring) :
  s <> [] ->
  evaluate' commonPasswords (JString s) = evaluateString' commonPasswords s.
Proof.
  intros Hne. destruct s as [|c s]; [congruence | reflexivity].
Qed.

(** The answer to a request that passes the guard, field by field. *)
Lemma evaluateString_value (commonPasswords : list jsstring) (s : jsstring) :
  value (evaluateString' commonPasswords s)
  = let L := calculateL (Some s) in
    let N := calculateN (Some s) in
    let E := calculateEntropy (INR L) N in
    let exact := has commonPasswords s in
    let partialMatch :=
      if exact then None else findPartialMatch toLowerCase s commonPasswords in
    {| status := 200;
       json := ResultBody
         {| password := js "***";
            evaluation :=
              {| length_ := L;
                 keyspace := N;
                 entropy := parseFloat (toFixed E 2);
                 strength :=
                   if exact then js "Muy Débil (Común)"
                   else if truthyMatch partialMatch then js "Débil (Predecible)"
                   else checkPasswordStrength E;
                 isCommon := exact;
                 containedCommonWord := partialMatch |};
            security_tips :=
              {| estimatedCrackTime :=
                   if exact then js "Instantáneo (está en listas de filtraciones)"
                   else calculateCrackTime toFixed toLocaleString E;
                 recommendation :=
                   if exact
                   then js "Esta contraseña es comun entre las contraseñas filtradas. Cambiala por una más segura."
                   else if truthyMatch partialMatch
                   then js "Tu contraseña contiene la palabra común '"
                          ++ match partialMatch with Some w => w | None => [] end
                          ++ js "'"
                   else js "¡Buena contraseña!" |} |} |}.
Proof.
  unfold evaluateString, bind, call, ret, value. cbv zeta.
  destruct (has commonPasswords s); [reflexivity |].
  destruct (truthyMatch (findPartialMatch toLowerCase s commonPasswords));
    reflexivity.
Qed.

Lemma truthyMatch_findPartialMatch (commonPasswords : list jsstring) (s w : jsstring) :
  findPartialMatch toLowerCase s commonPasswords = Some w ->
  truthyMatch (Some w) = true.
Proof.
  intros H. apply findPartialMatch_long in H.
  destruct w; [simpl in H; lia | reflexivity].
Qed.

(** C5. For a valid password the answer is a 200 whose fields follow the
    three cases: an exact member of the corpus is reported common, with no
    contained word and without the partial search being run, its strength
    is "Muy Débil (Común)" and its crack time the breach-list sentinel,
    whatever the entropy; otherwise, when the partial search finds a word,
    the strength is "Débil (Predecible)" and the crack time is the one
    derived from the entropy; otherwise strength and crack time are the
    values derived from the entropy. *)
Theorem evaluate_case_analysis (commonPasswords : list jsstring) (s : jsstring) :
  s <> [] ->
  let out := evaluate' commonPasswords (JString s) in
  let E := calculateEntropy (INR (length s)) (calculateN (Some s)) in
  exists res,
    value out = {| status := 200; json := ResultBody res |}
    /\ (In s commonPasswords ->
        isCommon (evaluation res) = true
        /\ containedCommonWord (evaluation res) = None
        /\ ~ In FindPartialMatch (calls out)
        /\ strength (evaluation res) = js "Muy Débil (Común)"
        /\ estimatedCrackTime (security_tips res)
           = js "Instantáneo (está en listas de filtraciones)")
    /\ (~ In s commonPasswords ->
        forall w, findPartialMatch toLowerCase s commonPasswords = Some w ->
        isCommon (evaluation res) = false
        /\ containedCommonWord (evaluation res) = Some w
        /\ strength (evaluation res) = js "Débil (Predecible)"
        /\ estimatedCrackTime (security_tips res)
           = calculateCrackTime toFixed toLocaleString E)
    /\ (~ In s commonPasswords ->
        findPartialMatch toLowerCase s commonPasswords = None ->
        isCommon (evaluation res) = false
        /\ containedCommonWord (evaluation res) = None
        /\ strength (evaluation res) = checkPasswordStrength E
        /\ estimatedCrackTime (security_tips res)
           = calculateCrackTime toFixed toLocaleString E).
Proof.
  intros Hne out E. destruct s as [|c s]; [congruence | clear Hne].
  pose proof (has_spec commonPasswords (c :: s)) as Hhas.
  pose proof (evaluateString_calls commonPasswords (c :: s)) as Hcalls.
  assert (Hout : out = evaluateString' commonPasswords (c :: s)) by reflexivity.
  rewrite <- Hout in Hcalls. clearbody out. subst out.
  unfold evaluateString, bind, call, ret, value in *.
  destruct (has commonPasswords (c :: s)) eqn:Hc.
  - eexists. split; [reflexivity |]. cbn [evaluation security_tips isCommon
      containedCommonWord strength estimatedCrackTime fst].
    split; [| split].
    + intros _. repeat split. rewrite Hcalls. cbn. intuition discriminate.
    + intros Hn. exfalso. apply Hn, Hhas. reflexivity.
    + intros Hn. exfalso. apply Hn, Hhas. reflexivity.
  - assert (Hn : ~ In (c :: s) commonPasswords)
      by (intros Hin; apply Hhas in Hin; discriminate Hin).
    destruct (findPartialMatch toLowerCase (c :: s) commonPasswords) as [w|] eqn:Hp.
    + rewrite (truthyMatch_findPartialMatch _ _ Hp).
      eexists. split; [reflexivity |].
      cbn [evaluation security_tips isCommon containedCommonWord strength
             estimatedCrackTime fst].
      split; [| split].
      * intros Hin. contradiction.
      * intros _ w' Hw'. inversion Hw'; subst w'. repeat split.
      * intros _ Hw'. discriminate Hw'.
    + cbn [truthyMatch]. eexists. split; [reflexivity |].
      cbn [evaluation security_tips isCommon containedCommonWord strength
             estimatedCrackTime fst].
      split; [| split].
      * intros Hin. contradiction.
      * intros _ w' Hw'. discriminate Hw'.
      * intros _ _. repeat split.
Qed.

End Route.

(** An instance of the case analysis, over the ASCII case mapping and
    formatters that print nothing. *)

Lemma evaluate_case_analysis_witness :
  js "password" <> []
  /\ exists res,
      value (evaluate asciiToLowerCase (fun _ _ => []) (fun _ _ => []) (fun _ => 0%R)
               [js "password"] (JString (js "password")))
      = {| status := 200; json := ResultBody res |}
      /\ isCommon (evaluation res) = true
      /\ containedCommonWord (evaluation res) = None
      /\ strength (evaluation res) = js "Muy Débil (Común)".
Proof.
  assert (Hne : js "password" <> []) by discriminate.
  split; [exact Hne |].
  destruct (@evaluate_case_analysis asciiToLowerCase (fun _ _ => [])
              (fun _ _ => []) (fun _ => 0%R) [js "password"] (js "password") Hne)
    as [res [Hv [Hexact _]]].
  exists res. split; [exact Hv |].
  destruct (Hexact (or_introl eq_refl)) as [H1 [H2 [_ [H3 _]]]].
  repeat split; assumption.
Defined.

(** A password that holds a corpus word without being one is answered with
    the word and the predictable label; the partial search has been run. *)
Example evaluate_partial_example :
  let out := evaluate asciiToLowerCase (fun _ _ => []) (fun _ _ => []) (fun _ => 0%R)
               [js "1234"; js "password"]
               (JString (js "MySecurePassword123Contains-password-inside")) in
  calls out = [CalculateL; CalculateN; CalculateEntropy; CheckPasswordStrength;
               CalculateCrackTime; CommonPasswordsHas; FindPartialMatch]
  /\ exists res,
      value out = {| status := 200; json := ResultBody res |}
      /\ length_ (evaluation res) = 43
      /\ keyspace (evaluation res) = 94
      /\ isCommon (evaluation res) = false
      /\ containedCommonWord (evaluation res) = Some (js "password")
      /\ strength (evaluation res) = js "Débil (Predecible)".
Proof.
  cbv zeta.
  rewrite evaluate_nonempty_string by discriminate.
  split.
  - rewrite evaluateString_calls.
    replace (has _ _) with false by (vm_compute; reflexivity). reflexivity.
  - rewrite evaluateString_value. cbv zeta.
    replace (has _ _) with false by (vm_compute; reflexivity).
    replace (findPartialMatch _ _ _) with (Some (js "password"))
      by (vm_compute; reflexivity).
    replace (calculateL _) with 43 by (vm_compute; reflexivity).
    replace (calculateN _) with 94 by (vm_compute; reflexivity).
    eexists. split; [reflexivity |].
    cbn [evaluation length_ keyspace isCommon containedCommonWord strength].
    repeat split.
Qed.

(* ================================================================== *)
(** * Further properties of the code *)

(* ------------------------------------------------------------------ *)
(** ** Keyspace size and length *)

Lemma test_incl (cls : codeunit -> bool) (s t : jsstring) :
  incl s t -> test cls s = true -> test cls t = true.
Proof.
  intros I H. apply test_spec in H as [c [Hc Hcls]].
  apply test_spec. exists c. split; [apply I, Hc | exact Hcls].
Qed.

Lemma calculateN_incl (s t : jsstring) :
  incl s t -> calculateN (Some s) <= calculateN (Some t).
Proof.
  intros I. destruct s as [|x s]; [cbn; lia |].
  destruct t as [|y t]; [destruct (I x (or_introl eq_refl)) |].
  unfold calculateN, falsy.
  assert (T : forall cls, test cls (x :: s) = true -> test cls (y :: t) = true)
    by (intros cls; apply test_incl, I).
  destruct (test isLower (x :: s)) eqn:E1; [rewrite (T _ E1) |];
    (destruct (test isUpper (x :: s)) eqn:E2; [rewrite (T _ E2) |]);
    (destruct (test isDigit (x :: s)) eqn:E3; [rewrite (T _ E3) |]);
    (destruct (test isSymbol (x :: s)) eqn:E4; [rewrite (T _ E4) |]);
    destruct (test isLower (y :: t)), (test isUpper (y :: t)),
      (test isDigit (y :: t)), (test isSymbol (y :: t)); simpl; lia.
Qed.

Lemma calculateN_le_94 (p : option jsstring) : calculateN p <= 94.
Proof.
  destruct p as [[|x s]|]; unfold calculateN, falsy; try lia.
  destruct (test isLower (x :: s)), (test isUpper (x :: s)),
    (test isDigit (x :: s)), (test isSymbol (x :: s)); simpl; lia.
Qed.

(** X1. [calculateN] returns one of twelve values, the sums of the weights
    of a set of classes, and never more than 94. *)
Theorem calculateN_range (p : option jsstring) :
  In (calculateN p) keyspaceSizes /\ calculateN p <= 94.
Proof.
  split; [| apply calculateN_le_94].
  destruct p as [[|x s]|]; unfold calculateN, falsy, keyspaceSizes;
    try (left; reflexivity).
  destruct (test isLower (x :: s)), (test isUpper (x :: s)),
    (test isDigit (x :: s)), (test isSymbol (x :: s)); cbn; tauto.
Qed.

(** X2. The keyspace size depends on which code units occur, not on their
    order or number: a password all of whose code units occur in another has
    a keyspace size that is not larger, and two passwords with the same code
    units have the same one.  Appending to a password never lowers it. *)
Theorem calculateN_monotone (s t : jsstring) :
  incl s t ->
  calculateN (Some s) <= calculateN (Some t)
  /\ (incl t s -> calculateN (Some s) = calculateN (Some t))
  /\ (forall u, calculateN (Some t) <= calculateN (Some (t ++ u))).
Proof.
  pose proof calculateN_incl as M.
  intros I. split; [apply M, I |]. split.
  - intros I'. apply Nat.le_antisymm; apply M; assumption.
  - intros u. apply M. apply incl_appl, incl_refl.
Qed.

Lemma calculateN_monotone_witness :
  incl (js "abc") (js "cab1")
  /\ calculateN (Some (js "abc")) <= calculateN (Some (js "cab1")).
Proof.
  assert (I : incl (js "abc") (js "cab1"))
    by (intros c Hc; cbn in Hc |- *; tauto).
  split; [exact I |].
  exact (proj1 (@calculateN_monotone (js "abc") (js "cab1") I)).
Defined.

(* ------------------------------------------------------------------ *)
(** ** Entropy, strength and crack time together *)

Open Scope R_scope.

Lemma pow2_lt (a b : R) : pow2 a < pow2 b <-> a < b.
Proof.
  unfold pow2. split.
  - intros H. destruct (Rlt_dec a b) as [Hab | Hab]; [exact Hab | exfalso].
    assert (Rpower 2 b <= Rpower 2 a) by (apply Rle_Rpower; lra). lra.
  - intros H. apply Rpower_lt; lra.
Qed.

Lemma pow2_le (a b : R) : pow2 a <= pow2 b <-> a <= b.
Proof.
  split; intros H.
  - destruct (Rle_dec a b) as [Hab | Hab]; [exact Hab | exfalso].
    assert (pow2 b < pow2 a) by (apply pow2_lt; lra). lra.
  - unfold pow2. apply Rle_Rpower; lra.
Qed.

Lemma pow2_calculateEntropy_Z (L N : nat) :
  N <> 0%nat ->
  pow2 (calculateEntropy (INR L) N) = IZR (Z.of_nat N ^ Z.of_nat L).
Proof.
  intros HN. rewrite (pow2_calculateEntropy L HN), INR_IZR_INZ.
  apply pow_IZR.
Qed.

(** The number of candidates against a bound of at least 2: with no class
    present the entropy is 0, and [0 ^ L] is below the bound as well. *)
Lemma pow2_calculateEntropy_lt (L N : nat) (T : Z) :
  (2 <= T)%Z ->
  pow2 (calculateEntropy (INR L) N) < IZR T
  <-> (Z.of_nat N ^ Z.of_nat L < T)%Z.
Proof.
  intros HT. destruct (Nat.eq_dec N 0) as [-> | HN].
  - rewrite calculateEntropy_zero. unfold pow2. rewrite Rpower_O by lra.
    split; intros _.
    + destruct L as [|L]; [simpl; lia |].
      rewrite Z.pow_0_l by lia. lia.
    + apply (IZR_lt 1). lia.
  - rewrite (pow2_calculateEntropy_Z L HN).
    split; [apply lt_IZR | apply IZR_lt].
Qed.

Lemma calculateEntropy_lt_bits (L N : nat) (k : Z) :
  (1 <= k)%Z ->
  calculateEntropy (INR L) N < IZR k <-> (Z.of_nat N ^ Z.of_nat L < 2 ^ k)%Z.
Proof.
  intros Hk. rewrite <- pow2_lt, (@pow2_Z k) by lia.
  apply pow2_calculateEntropy_lt.
  change 2%Z with (2 ^ 1)%Z at 1. apply Z.pow_le_mono_r; lia.
Qed.

(** X3. The label is decided by the number [N ^ L] of candidate passwords:
    "Débil" below [2 ^ 60] candidates, "Fuerte" from [2 ^ 60] up to but not
    including [2 ^ 80], "Muy Fuerte" from [2 ^ 80] on. *)
Theorem checkPasswordStrength_by_candidates (L N : nat) :
  let candidates := (Z.of_nat N ^ Z.of_nat L)%Z in
  let E := calculateEntropy (INR L) N in
  ((candidates < 2 ^ 60)%Z -> checkPasswordStrength E = js "Débil")
  /\ ((2 ^ 60 <= candidates < 2 ^ 80)%Z -> checkPasswordStrength E = js "Fuerte")
  /\ ((2 ^ 80 <= candidates)%Z -> checkPasswordStrength E = js "Muy Fuerte").
Proof.
  intros candidates E.
  pose proof (@calculateEntropy_lt_bits L N 60 ltac:(lia)) as H60.
  pose proof (@calculateEntropy_lt_bits L N 80 ltac:(lia)) as H80.
  fold candidates in H60, H80. fold E in H60, H80.
  split; [| split].
  - intros H. apply checkPasswordStrength_below_60, H60, H.
  - intros [H1 H2]. apply checkPasswordStrength_60_to_80. split.
    + destruct (Rle_dec 60 E) as [Hle | Hn]; [exact Hle | exfalso].
      assert (E < 60) by lra. apply H60 in H. lia.
    + apply H80, H2.
  - intros H. apply checkPasswordStrength_from_80.
    destruct (Rle_dec 80 E) as [Hle | Hn]; [exact Hle | exfalso].
    assert (E < 80) as H' by lra. apply H80 in H'. lia.
Qed.

Lemma candidates_le (L L' N N' : nat) :
  (N <= N')%nat -> (L <= L')%nat -> N' <> 0%nat ->
  (Z.of_nat N ^ Z.of_nat L <= Z.of_nat N' ^ Z.of_nat L')%Z.
Proof.
  intros HN HL HN'.
  apply Z.le_trans with (Z.of_nat N' ^ Z.of_nat L)%Z.
  - apply Z.pow_le_mono_l. lia.
  - apply Z.pow_le_mono_r; lia.
Qed.

Lemma short_password_entropy (s : jsstring) :
  (length s <= 9)%nat ->
  calculateEntropy (INR (calculateL (Some s))) (calculateN (Some s)) < 60.
Proof.
  intros Hlen. apply (@calculateEntropy_lt_bits _ _ 60); [lia |].
  assert (HL : (calculateL (Some s) <= 9)%nat)
    by (destruct s; [cbn; lia | exact Hlen]).
  pose proof (calculateN_le_94 (Some s)) as HN.
  apply Z.le_lt_trans with (Z.of_nat 94 ^ Z.of_nat 9)%Z.
  - apply candidates_le; [exact HN | exact HL | lia].
  - vm_compute. reflexivity.
Qed.

(** X4. A password of at most nine code units is "Débil" by its entropy,
    whatever its characters: there are fewer than [2 ^ 60] candidates. *)
Theorem short_password_is_weak (s : jsstring) :
  (length s <= 9)%nat ->
  checkPasswordStrength
    (calculateEntropy (INR (calculateL (Some s))) (calculateN (Some s)))
  = js "Débil".
Proof.
  intros Hlen. apply checkPasswordStrength_below_60, short_password_entropy, Hlen.
Qed.

Lemma short_password_is_weak_witness :
  (length (js "Ab3$Ab3$x") <= 9)%nat
  /\ checkPasswordStrength
       (calculateEntropy (INR (calculateL (Some (js "Ab3$Ab3$x"))))
          (calculateN (Some (js "Ab3$Ab3$x"))))
     = js "Débil".
Proof.
  assert (H : (length (js "Ab3$Ab3$x") <= 9)%nat) by (vm_compute; lia).
  split; [exact H |].
  exact (@short_password_is_weak (js "Ab3$Ab3$x") H).
Defined.

(** X5. For a password that holds all four classes the label follows from
    the length alone: "Débil" up to 9 code units, "Fuerte" from 10 to 12,
    "Muy Fuerte" from 13 on. *)
Theorem strength_by_length_all_classes (s : jsstring) :
  calculateN (Some s) = 94%nat ->
  let label :=
    checkPasswordStrength
      (calculateEntropy (INR (calculateL (Some s))) (calculateN (Some s))) in
  ((length s <= 9)%nat -> label = js "Débil")
  /\ ((10 <= length s <= 12)%nat -> label = js "Fuerte")
  /\ ((13 <= length s)%nat -> label = js "Muy Fuerte").
Proof.
  intros HN label. subst label. rewrite HN.
  assert (HL : calculateL (Some s) = length s) by (destruct s; reflexivity).
  rewrite HL.
  pose proof (@calculateEntropy_lt_bits (length s) 94 60 ltac:(lia)) as H60.
  pose proof (@calculateEntropy_lt_bits (length s) 94 80 ltac:(lia)) as H80.
  assert (P : forall a b : nat, (a <= b)%nat ->
                (Z.of_nat 94 ^ Z.of_nat a <= Z.of_nat 94 ^ Z.of_nat b)%Z)
    by (intros a b Hab; apply candidates_le; lia).
  split; [| split].
  - intros H. apply checkPasswordStrength_below_60, H60.
    apply Z.le_lt_trans with (Z.of_nat 94 ^ Z.of_nat 9)%Z;
      [apply P, H | vm_compute; reflexivity].
  - intros [H1 H2]. apply checkPasswordStrength_60_to_80. split.
    + destruct (Rle_dec 60 (calculateEntropy (INR (length s)) 94)) as [Hle | Hn];
        [exact Hle | exfalso].
      apply Rnot_le_lt, H60 in Hn.
      assert (Z.of_nat 94 ^ Z.of_nat 10 <= Z.of_nat 94 ^ Z.of_nat (length s))%Z
        by (apply P, H1).
      assert (2 ^ 60 <= Z.of_nat 94 ^ Z.of_nat 10)%Z by (vm_compute; discriminate).
      lia.
    + apply H80.
      apply Z.le_lt_trans with (Z.of_nat 94 ^ Z.of_nat 12)%Z;
        [apply P, H2 | vm_compute; reflexivity].
  - intros H. apply checkPasswordStrength_from_80.
    destruct (Rle_dec 80 (calculateEntropy (INR (length s)) 94)) as [Hle | Hn];
      [exact Hle | exfalso].
    apply Rnot_le_lt, H80 in Hn.
    assert (Z.of_nat 94 ^ Z.of_nat 13 <= Z.of_nat 94 ^ Z.of_nat (length s))%Z
      by (apply P, H).
    assert (2 ^ 80 <= Z.of_nat 94 ^ Z.of_nat 13)%Z by (vm_compute; discriminate).
    lia.
Qed.

Lemma strength_by_length_all_classes_witness :
  calculateN (Some (js "MyP@ssw0rd!")) = 94%nat
  /\ checkPasswordStrength
       (calculateEntropy (INR (calculateL (Some (js "MyP@ssw0rd!"))))
          (calculateN (Some (js "MyP@ssw0rd!"))))
     = js "Fuerte".
Proof.
  assert (H : calculateN (Some (js "MyP@ssw0rd!")) = 94%nat) by reflexivity.
  split; [exact H |].
  apply (proj1 (proj2 (@strength_by_length_all_classes (js "MyP@ssw0rd!") H))).
  vm_compute. split; lia.
Defined.

Close Scope R_scope.

(* ------------------------------------------------------------------ *)
(** ** Crack time: units, labels and candidates *)

Section CrackTimeUnits.

Variable toFixed : R -> nat -> jsstring.
Variable toLocaleString : R -> jsstring -> jsstring.

Local Abbreviation crackTime := (calculateCrackTime toFixed toLocaleString).

Open Scope R_scope.

(** The answer as a function of the seconds alone. *)
Lemma calculateCrackTime_seconds (E : R) :
  let seconds := pow2 E / 1e11 in
  (seconds < 1 -> crackTime E = js "Instantáneo")
  /\ (1 <= seconds < 60 -> crackTime E = toFixed seconds 2 ++ js " segundos")
  /\ (60 <= seconds < 3600 ->
      crackTime E = toFixed (seconds / 60) 2 ++ js " minutos")
  /\ (3600 <= seconds < 86400 ->
      crackTime E = toFixed (seconds / 60 / 60) 2 ++ js " horas")
  /\ (86400 <= seconds < 31536000 ->
      crackTime E = toFixed (seconds / 60 / 60 / 24) 2 ++ js " días")
  /\ (31536000 <= seconds < 31536000000000 ->
      crackTime E
      = toLocaleString (seconds / 60 / 60 / 24 / 365) (js "es-MX") ++ js " años")
  /\ (31536000000000 <= seconds -> crackTime E = js "Millones de años").
Proof.
  intros seconds.
  assert (T : forall a b, a < b -> Rltb a b = true)
    by (intros a b; apply Rltb_true).
  assert (F : forall a b, b <= a -> Rltb a b = false)
    by (intros a b; apply Rltb_false).
  unfold calculateCrackTime. fold seconds.
  repeat split; intros H;
    repeat (first [rewrite T by lra | rewrite F by lra]); reflexivity.
Qed.

(** X6. The unit of the answer is chosen by ranges of the estimated seconds:
    below 1 second "Instantáneo"; below a minute, seconds; below an hour,
    minutes; below a day, hours; below 365 days, days; below a million years
    of 365 days, years; "Millones de años" from there on. *)
Theorem calculateCrackTime_by_seconds (E : R) :
  let seconds := pow2 E / 1e11 in
  (seconds < 1 -> crackTime E = js "Instantáneo")
  /\ (1 <= seconds < 60 -> crackTime E = toFixed seconds 2 ++ js " segundos")
  /\ (60 <= seconds < 3600 ->
      crackTime E = toFixed (seconds / 60) 2 ++ js " minutos")
  /\ (3600 <= seconds < 86400 ->
      crackTime E = toFixed (seconds / 3600) 2 ++ js " horas")
  /\ (86400 <= seconds < 31536000 ->
      crackTime E = toFixed (seconds / 86400) 2 ++ js " días")
  /\ (31536000 <= seconds < 31536000 * 1e6 ->
      crackTime E = toLocaleString (seconds / 31536000) (js "es-MX") ++ js " años")
  /\ (31536000 * 1e6 <= seconds -> crackTime E = js "Millones de años").
Proof.
  intros seconds.
  destruct (calculateCrackTime_seconds E) as [H1 [H2 [H3 [H4 [H5 [H6 H7]]]]]].
  fold seconds in H1, H2, H3, H4, H5, H6, H7.
  split; [exact H1 |]. split; [exact H2 |]. split; [exact H3 |].
  split; [| split; [| split]].
  - intros H. rewrite (H4 H). do 2 f_equal. field.
  - intros H. rewrite (H5 H). do 2 f_equal. field.
  - intros H. rewrite H6 by lra. do 2 f_equal. field.
  - intros H. apply H7. lra.
Qed.

(** X7. Labels and crack times agree: an entropy graded "Débil" (below 60)
    is never given a crack time in years, one graded "Muy Fuerte" (80 or
    more) always is, in years or as "Millones de años"; up to 36 bits the
    answer is "Instantáneo" and from 82 bits on "Millones de años". *)
Theorem calculateCrackTime_and_strength (E : R) :
  let seconds := pow2 E / 1e11 in
  (E <= 36 -> crackTime E = js "Instantáneo")
  /\ (E < 60 ->
      checkPasswordStrength E = js "Débil"
      /\ (crackTime E = js "Instantáneo"
          \/ crackTime E = toFixed seconds 2 ++ js " segundos"
          \/ crackTime E = toFixed (seconds / 60) 2 ++ js " minutos"
          \/ crackTime E = toFixed (seconds / 60 / 60) 2 ++ js " horas"
          \/ crackTime E = toFixed (seconds / 60 / 60 / 24) 2 ++ js " días"))
  /\ (80 <= E ->
      checkPasswordStrength E = js "Muy Fuerte"
      /\ (crackTime E
          = toLocaleString (seconds / 60 / 60 / 24 / 365) (js "es-MX") ++ js " años"
          \/ crackTime E = js "Millones de años"))
  /\ (82 <= E -> crackTime E = js "Millones de años").
Proof.
  intros seconds.
  destruct (calculateCrackTime_seconds E) as [H1 [H2 [H3 [H4 [H5 [H6 H7]]]]]].
  fold seconds in H1, H2, H3, H4, H5, H6, H7.
  assert (P36 : pow2 36 = 68719476736)
    by (rewrite (@pow2_Z 36%Z) by lia; reflexivity).
  assert (P60 : pow2 60 = 1152921504606846976)
    by (rewrite (@pow2_Z 60%Z) by lia; reflexivity).
  assert (P80 : pow2 80 = 1208925819614629174706176)
    by (rewrite (@pow2_Z 80%Z) by lia; reflexivity).
  assert (P82 : pow2 82 = 4835703278458516698824704)
    by (rewrite (@pow2_Z 82%Z) by lia; reflexivity).
  split; [| split; [| split]].
  - intros H. apply H1. apply pow2_le in H. unfold seconds. lra.
  - intros H. split; [apply checkPasswordStrength_below_60, H |].
    apply pow2_lt in H.
    assert (S : seconds < 31536000) by (unfold seconds; lra).
    destruct (Rlt_dec seconds 1) as [A | A]; [left; apply H1, A |].
    destruct (Rlt_dec seconds 60) as [B | B];
      [right; left; apply H2; lra |].
    destruct (Rlt_dec seconds 3600) as [C | C];
      [right; right; left; apply H3; lra |].
    destruct (Rlt_dec seconds 86400) as [D | D];
      [right; right; right; left; apply H4; lra |].
    right; right; right; right. apply H5. lra.
  - intros H. split; [apply checkPasswordStrength_from_80, H |].
    apply pow2_le in H.
    assert (S : 31536000 <= seconds) by (unfold seconds; lra).
    destruct (Rlt_dec seconds 31536000000000) as [A | A].
    + left. apply H6. lra.
    + right. apply H7. lra.
  - intros H. apply H7. apply pow2_le in H. unfold seconds. lra.
Qed.

Lemma calculateCrackTime_instant (L N : nat) :
  (Z.of_nat N ^ Z.of_nat L < 10 ^ 11)%Z ->
  crackTime (calculateEntropy (INR L) N) = js "Instantáneo".
Proof.
  intros H. apply (calculateCrackTime_seconds (calculateEntropy (INR L) N)).
  apply (@pow2_calculateEntropy_lt L N (10 ^ 11)%Z) in H; [| lia].
  change (IZR (10 ^ 11)) with 100000000000 in H. lra.
Qed.

Lemma calculateN_unclassified (s : jsstring) :
  unclassified s -> calculateN (Some s) = 0%nat.
Proof.
  intros U. destruct s as [|x s]; [reflexivity |].
  unfold calculateN, falsy.
  rewrite (proj2 (test_false isLower (x :: s))),
    (proj2 (test_false isUpper (x :: s))),
    (proj2 (test_false isDigit (x :: s))),
    (proj2 (test_false isSymbol (x :: s)));
    [reflexivity | intros c Hc; apply (U c Hc) ..].
Qed.

(** X8. The estimate counts candidates: with [N ^ L] candidate passwords
    the seconds are [N ^ L / 10 ^ 11] (for [N] not 0), and with fewer than
    [10 ^ 11] candidates the answer is "Instantáneo". *)
Theorem calculateCrackTime_counts_candidates (L N : nat) :
  (N <> 0%nat ->
   pow2 (calculateEntropy (INR L) N) / 1e11
   = IZR (Z.of_nat N ^ Z.of_nat L) / IZR (10 ^ 11))
  /\ ((Z.of_nat N ^ Z.of_nat L < 10 ^ 11)%Z ->
      crackTime (calculateEntropy (INR L) N) = js "Instantáneo").
Proof.
  split.
  - intros HN. rewrite (pow2_calculateEntropy_Z L HN).
    change (IZR (10 ^ 11)) with 100000000000. f_equal. lra.
  - apply calculateCrackTime_instant.
Qed.

(** X9. For the entropy the route computes of a password [s]: a password of
    at most five code units is "Instantáneo" to crack, whatever its
    characters; a password none of whose code units belongs to a class has
    entropy 0 however long it is, and is "Débil" and "Instantáneo". *)
Theorem weakest_passwords (s : jsstring) :
  let E := calculateEntropy (INR (calculateL (Some s))) (calculateN (Some s)) in
  ((length s <= 5)%nat -> crackTime E = js "Instantáneo")
  /\ (unclassified s ->
      E = 0 /\ checkPasswordStrength E = js "Débil"
      /\ crackTime E = js "Instantáneo").
Proof.
  intros E. split.
  - intros Hlen. apply calculateCrackTime_instant.
    assert (HL : (calculateL (Some s) <= 5)%nat)
      by (destruct s; [cbn; lia | exact Hlen]).
    pose proof (calculateN_le_94 (Some s)) as HN.
    apply Z.le_lt_trans with (Z.of_nat 94 ^ Z.of_nat 5)%Z.
    + apply candidates_le; [exact HN | exact HL | lia].
    + vm_compute. reflexivity.
  - intros U. pose proof (calculateN_unclassified U) as N0.
    assert (E0 : E = 0) by (unfold E; rewrite N0; apply calculateEntropy_zero).
    split; [exact E0 |]. split.
    + rewrite E0. apply checkPasswordStrength_below_60. lra.
    + unfold E. apply calculateCrackTime_instant. rewrite N0.
      destruct (calculateL (Some s)) as [|L]; [simpl; lia |].
      rewrite Z.pow_0_l by lia. lia.
Qed.

End CrackTimeUnits.

Close Scope R_scope.

(** An unclassified password of sixteen code units. *)
Example weakest_passwords_example :
  let s := js "áéíóúñüÁÉÍÓÚÑÜ¿¡" in
  length s = 16 /\ unclassified s /\ calculateN (Some s) = 0.
Proof.
  cbv zeta. split; [reflexivity |]. split; [| reflexivity].
  intros c Hc. cbn in Hc.
  repeat (destruct Hc as [<- | Hc]; [repeat split |]). destruct Hc.
Qed.

(* ------------------------------------------------------------------ *)
(** ** More on partial matches *)

Lemma includes_length (s t : jsstring) :
  includes s t = true -> length t <= length s.
Proof.
  intros H. apply includes_spec in H as [a [b ->]].
  rewrite !length_app. lia.
Qed.

Lemma includes_refl (s : jsstring) : includes s s = true.
Proof.
  apply includes_spec. exists [], []. rewrite app_nil_r. reflexivity.
Qed.

Section PartialMatchMore.

Variable toLowerCase : jsstring -> jsstring.

Local Abbreviation findPartialMatch' := (findPartialMatch toLowerCase).

Lemma findPartialMatch_app (password : jsstring) (a b : list jsstring) :
  findPartialMatch' password (a ++ b)
  = match findPartialMatch' password a with
    | Some w => Some w
    | None => findPartialMatch' password b
    end.
Proof.
  induction a as [|e a IH]; simpl; [reflexivity |].
  destruct (matchesEntry toLowerCase password e); [reflexivity | exact IH].
Qed.

(** X10. Only the lowercased password matters to the partial search: two
    passwords with the same lowercase form get the same answer from every
    corpus. *)
Theorem findPartialMatch_case_insensitive (p1 p2 : jsstring) (corpus : list jsstring) :
  toLowerCase p1 = toLowerCase p2 ->
  findPartialMatch' p1 corpus = findPartialMatch' p2 corpus.
Proof.
  intros H. induction corpus as [|e corpus IH]; simpl; [reflexivity |].
  unfold matchesEntry. rewrite H, IH. reflexivity.
Qed.

(** X11. The word returned is an entry of the corpus, at least five code
    units long and no longer than the lowercased password; a password whose
    lowercase form has fewer than five code units has no partial match. *)
Theorem findPartialMatch_bounds (password : jsstring) (corpus : list jsstring) :
  (forall w, findPartialMatch' password corpus = Some w ->
     In w corpus /\ 5 <= length w <= length (toLowerCase password))
  /\ (length (toLowerCase password) < 5 -> findPartialMatch' password corpus = None).
Proof.
  assert (B : forall w, findPartialMatch' password corpus = Some w ->
                In w corpus /\ 5 <= length w <= length (toLowerCase password)).
  { intros w H. apply findPartialMatch_Some in H as [pre [post [-> [Q _]]]].
    split; [apply in_or_app; right; left; reflexivity |].
    apply matchesEntry_spec in Q. unfold matchesEntry, MIN_LENGTH in Q.
    apply andb_true_iff in Q as [Q1 Q2].
    apply Nat.leb_le in Q1. apply includes_length in Q2. lia. }
  split; [exact B |].
  intros Hlen. destruct (findPartialMatch' password corpus) as [w|] eqn:E;
    [| reflexivity].
  destruct (B w eq_refl) as [_ Hw]. lia.
Qed.

(** X12. Scanning a corpus followed by another is scanning the first and,
    only when it has no match, the second: entries added at the end of a
    corpus never change a match that was found. *)
Theorem findPartialMatch_append (password : jsstring) (a b : list jsstring) :
  findPartialMatch' password (a ++ b)
  = match findPartialMatch' password a with
    | Some w => Some w
    | None => findPartialMatch' password b
    end
  /\ (forall w, findPartialMatch' password a = Some w ->
        findPartialMatch' password (a ++ b) = Some w).
Proof.
  split; [apply findPartialMatch_app |].
  intros w H. rewrite findPartialMatch_app, H. reflexivity.
Qed.

(** X13. Whenever some entry of the corpus is at least five code units
    long and contained in the lowercased password, the search returns a
    word; in particular a password whose lowercase form is itself such an
    entry always has a partial match. *)
Theorem findPartialMatch_finds (password : jsstring) (corpus : list jsstring) :
  ((exists x, In x corpus /\ qualifies toLowerCase password x) ->
   exists w, findPartialMatch' password corpus = Some w)
  /\ (In (toLowerCase password) corpus -> 5 <= length (toLowerCase password) ->
      exists w, findPartialMatch' password corpus = Some w).
Proof.
  assert (F : (exists x, In x corpus /\ qualifies toLowerCase password x) ->
              exists w, findPartialMatch' password corpus = Some w).
  { intros [x [Hx Q]].
    destruct (findPartialMatch' password corpus) as [w|] eqn:E; [eauto |].
    exfalso. apply (proj1 (findPartialMatch_None toLowerCase password corpus) E x Hx Q). }
  split; [exact F |].
  intros Hin Hlen. apply F. exists (toLowerCase password).
  split; [exact Hin |]. apply matchesEntry_spec.
  unfold matchesEntry, MIN_LENGTH.
  rewrite includes_refl, andb_true_r. apply Nat.leb_le, Hlen.
Qed.

End PartialMatchMore.

Lemma findPartialMatch_case_insensitive_witness :
  asciiToLowerCase (js "PassWord1") = asciiToLowerCase (js "pAssword1")
  /\ findPartialMatch asciiToLowerCase (js "PassWord1") [js "qwerty"; js "password"]
     = findPartialMatch asciiToLowerCase (js "pAssword1") [js "qwerty"; js "password"].
Proof.
  assert (H : asciiToLowerCase (js "PassWord1") = asciiToLowerCase (js "pAssword1"))
    by reflexivity.
  split; [exact H |].
  exact (@findPartialMatch_case_insensitive asciiToLowerCase _ _
           [js "qwerty"; js "password"] H).
Defined.

(** A password that differs from an entry in case only. *)
Example findPartialMatch_case_variant :
  findPartialMatch asciiToLowerCase (js "PASSWORD") [js "qwerty"; js "password"]
  = Some (js "password")
  /\ has [js "qwerty"; js "password"] (js "PASSWORD") = false.
Proof. split; reflexivity. Qed.

(* ------------------------------------------------------------------ *)
(** ** Loading the corpus *)

Lemma add_spec (commonPasswords : list jsstring) (value p : jsstring) :
  In p (add commonPasswords value) <-> In p commonPasswords \/ p = value.
Proof.
  unfold add. destruct (has commonPasswords value) eqn:H.
  - apply has_spec in H. split; [tauto | intros [? | ->]; assumption].
  - rewrite in_app_iff. simpl. split; intros [? | ?]; subst; auto.
    destruct H0; [subst; auto | tauto].
Qed.

Lemma add_NoDup (commonPasswords : list jsstring) (value : jsstring) :
  NoDup commonPasswords -> NoDup (add commonPasswords value).
Proof.
  intros ND. unfold add. destruct (has commonPasswords value) eqn:H; [exact ND |].
  apply NoDup_app; [exact ND | repeat constructor; intros [] |].
  intros x Hx [<- | []]. apply has_spec in Hx. congruence.
Qed.

Lemma onData_spec (commonPasswords : list jsstring) (row : option jsstring) (p : jsstring) :
  In p (onData commonPasswords row)
  <-> In p commonPasswords \/ (p <> [] /\ row = Some p).
Proof.
  unfold onData. destruct row as [[|c r]|]; cbn [truthyMatch truthy].
  - split; [tauto | intros [? | [Hne E]]; [assumption | congruence]].
  - rewrite add_spec. split.
    + intros [? | ->]; [tauto | right; split; [discriminate | reflexivity]].
    + intros [? | [_ E]]; [tauto | right; congruence].
  - split; [tauto | intros [? | [_ E]]; [assumption | discriminate]].
Qed.

Lemma onData_appends (commonPasswords : list jsstring) (row : option jsstring) :
  exists extra, onData commonPasswords row = commonPasswords ++ extra
                /\ length extra <= 1.
Proof.
  unfold onData, add.
  destruct (truthyMatch row); [| exists []; rewrite app_nil_r; auto].
  destruct row as [p|]; [| exists []; rewrite app_nil_r; auto].
  destruct (has commonPasswords p).
  - exists []. rewrite app_nil_r. auto.
  - exists [p]. auto.
Qed.

Lemma onData_NoDup (commonPasswords : list jsstring) (row : option jsstring) :
  NoDup commonPasswords -> NoDup (onData commonPasswords row).
Proof.
  intros ND. unfold onData. destruct (truthyMatch row); [| exact ND].
  destruct row; [apply add_NoDup, ND | exact ND].
Qed.

Lemma loadRows_spec (rows : list (option jsstring)) (commonPasswords : list jsstring)
      (p : jsstring) :
  In p (loadRows commonPasswords rows)
  <-> In p commonPasswords \/ (p <> [] /\ In (Some p) rows).
Proof.
  unfold loadRows. revert commonPasswords.
  induction rows as [|row rows IH]; intros c; simpl.
  - tauto.
  - rewrite IH, onData_spec. intuition (subst; auto).
Qed.

Lemma loadRows_appends (rows : list (option jsstring)) (commonPasswords : list jsstring) :
  exists extra, loadRows commonPasswords rows = commonPasswords ++ extra
                /\ length extra <= length rows.
Proof.
  unfold loadRows. revert commonPasswords.
  induction rows as [|row rows IH]; intros c; simpl.
  - exists []. rewrite app_nil_r. auto.
  - destruct (onData_appends c row) as [e1 [-> H1]].
    destruct (IH (c ++ e1)) as [e2 [-> H2]].
    exists (e1 ++ e2). rewrite app_assoc, length_app. split; [reflexivity | lia].
Qed.

Lemma loadRows_NoDup (rows : list (option jsstring)) (commonPasswords : list jsstring) :
  NoDup commonPasswords -> NoDup (loadRows commonPasswords rows).
Proof.
  unfold loadRows. revert commonPasswords.
  induction rows as [|row rows IH]; intros c ND; simpl; [exact ND |].
  apply IH, onData_NoDup, ND.
Qed.

Lemma loadRows_fixed (rows : list (option jsstring)) (commonPasswords : list jsstring) :
  (forall p, p <> [] -> In (Some p) rows -> In p commonPasswords) ->
  loadRows commonPasswords rows = commonPasswords.
Proof.
  unfold loadRows. induction rows as [|row rows IH]; intros H; simpl; [reflexivity |].
  assert (E : onData commonPasswords row = commonPasswords).
  { unfold onData, add. destruct row as [[|c r]|]; cbn [truthyMatch truthy];
      try reflexivity.
    rewrite (proj2 (has_spec commonPasswords (c :: r))); [reflexivity |].
    apply H; [discriminate | left; reflexivity]. }
  rewrite E. apply IH. intros p Hne Hin. apply H; [exact Hne | right; exact Hin].
Qed.

(** X14. After the rows of the file have been read into the empty corpus,
    [commonPasswords.has(p)] holds exactly for the non-empty passwords of
    the rows: rows without a password and rows with an empty one add
    nothing.  Every password is held once, and the size of the corpus, which
    the ['end'] listener logs, is at most the number of rows. *)
Theorem loadRows_members (rows : list (option jsstring)) :
  let commonPasswords := loadRows [] rows in
  (forall p, has commonPasswords p = true <-> p <> [] /\ In (Some p) rows)
  /\ has commonPasswords [] = false
  /\ NoDup commonPasswords
  /\ length commonPasswords <= length rows.
Proof.
  intros c. subst c.
  assert (M : forall p, has (loadRows [] rows) p = true <-> p <> [] /\ In (Some p) rows).
  { intros p. rewrite has_spec, loadRows_spec. simpl. tauto. }
  split; [exact M |]. split; [| split].
  - destruct (has (loadRows [] rows) []) eqn:E; [| reflexivity].
    apply M in E as [E _]. congruence.
  - apply loadRows_NoDup. constructor.
  - destruct (loadRows_appends rows []) as [extra [-> H]]. exact H.
Qed.

(** X15. Reading more rows only adds entries at the end of the corpus.  A
    password that was an exact member stays one, a partial match that was
    found stays the same word, and a later request is answered from a corpus
    that holds every entry an earlier one saw, in the same order. *)
Theorem loadRows_grows (toLowerCase : jsstring -> jsstring)
        (commonPasswords : list jsstring) (rows : list (option jsstring)) :
  (exists extra, loadRows commonPasswords rows = commonPasswords ++ extra)
  /\ (forall p, has commonPasswords p = true ->
        has (loadRows commonPasswords rows) p = true)
  /\ (forall password w,
        findPartialMatch toLowerCase password commonPasswords = Some w ->
        findPartialMatch toLowerCase password (loadRows commonPasswords rows) = Some w).
Proof.
  destruct (loadRows_appends rows commonPasswords) as [extra [E _]].
  split; [exists extra; exact E |]. split.
  - intros p H. apply has_spec. apply has_spec in H.
    rewrite E. apply in_or_app. left. exact H.
  - intros password w H. rewrite E, findPartialMatch_app, H. reflexivity.
Qed.

(** X16. Reading the same rows again changes nothing: the corpus after a
    second pass over the rows is the corpus after the first. *)
Theorem loadRows_idempotent (commonPasswords : list jsstring)
        (rows : list (option jsstring)) :
  loadRows (loadRows commonPasswords rows) rows = loadRows commonPasswords rows.
Proof.
  apply loadRows_fixed. intros p Hne Hin.
  apply loadRows_spec. right. split; assumption.
Qed.

(** A file with a row that has no password cell, a repeated password and
    an empty cell. *)
Example loadRows_example :
  loadRows [] [Some (js "123456"); None; Some (js "password"); Some [];
               Some (js "123456"); Some (js "qwerty")]
  = [js "123456"; js "password"; js "qwerty"].
Proof. reflexivity. Qed.

(* ------------------------------------------------------------------ *)
(** ** More on the evaluate route *)

Section RouteMore.

Variable toLowerCase : jsstring -> jsstring.
Variable toFixed : R -> nat -> jsstring.
Variable toLocaleString : R -> jsstring -> jsstring.
Variable parseFloat : jsstring -> R.

Local Abbreviation evaluate' :=
  (evaluate toLowerCase toFixed toLocaleString parseFloat).
Local Abbreviation postEvaluate' :=
  (postEvaluate toLowerCase toFixed toLocaleString parseFloat).
Local Abbreviation evaluateString' :=
  (evaluateString toLowerCase toFixed toLocaleString parseFloat).

Lemma postEvaluate_responds (commonPasswords : list jsstring) (body password : jsval) :
  getPassword body = Some password ->
  value (postEvaluate' commonPasswords body)
  = Responded (value (evaluate' commonPasswords password))
  /\ calls (postEvaluate' commonPasswords body)
     = calls (evaluate' commonPasswords password).
Proof.
  intros H. unfold postEvaluate. rewrite H.
  destruct (evaluate' commonPasswords password) as [r tr].
  unfold bind, ret, value, calls. cbn [fst snd].
  split; [reflexivity | apply app_nil_r].
Qed.

Lemma getPassword_None (body : jsval) :
  getPassword body = None <-> body = JUndefined \/ body = JNull.
Proof.
  destruct body as [ | | b | x | s | items | fields]; cbn [getPassword];
    try (split; [discriminate | intros [H | H]; discriminate H]);
    try (split; [auto | reflexivity]).
  destruct (getField fields (js "password"));
    (split; [discriminate | intros [H | H]; discriminate H]).
Qed.

(** X17. The listener throws, before any call, exactly when no body was
    parsed ([req.body] is [undefined], or [null]).  For every other body it
    answers 200 when the password it reads is a non-empty string and 400
    with the fixed message otherwise, never another status.  A 200 is
    preceded by the five computations and the exact lookup, in the order of
    the source, and by the partial search exactly when the password is no
    exact member; a 400 by no call. *)
Theorem postEvaluate_outcomes (commonPasswords : list jsstring) (body : jsval) :
  let out := postEvaluate' commonPasswords body in
  ((body = JUndefined \/ body = JNull)
   /\ value out = Threw TypeError /\ calls out = [])
  \/ (exists password,
        body <> JUndefined /\ body <> JNull
        /\ getPassword body = Some password
        /\ ((exists c s response,
               password = JString (c :: s)
               /\ value out = Responded response
               /\ status response = 200
               /\ calls out
                  = [CalculateL; CalculateN; CalculateEntropy;
                     CheckPasswordStrength; CalculateCrackTime; CommonPasswordsHas]
                    ++ (if has commonPasswords (c :: s)
                        then [] else [FindPartialMatch]))
            \/ ((forall c s, password <> JString (c :: s))
                /\ value out
                   = Responded {| status := 400; json := ErrorBody invalidMessage |}
                /\ calls out = []))).
Proof.
  intros out. subst out.
  destruct (getPassword body) as [password|] eqn:G.
  - right. exists password.
    assert (NU : body <> JUndefined /\ body <> JNull).
    { split; intros ->; discriminate G. }
    destruct NU as [N1 N2]. split; [exact N1 |]. split; [exact N2 |].
    split; [reflexivity |].
    destruct (postEvaluate_responds commonPasswords body G) as [V C].
    rewrite V, C.
    destruct (evaluate_guard toLowerCase toFixed toLocaleString parseFloat
                commonPasswords password) as [[c [s [-> E]]] | [H E]].
    + left. exists c, s. eexists. split; [reflexivity |].
      split; [reflexivity |]. rewrite E. split.
      * rewrite evaluateString_value. reflexivity.
      * apply evaluateString_calls.
    + right. rewrite E. split; [exact H |]. split; reflexivity.
  - left. split; [apply getPassword_None, G |].
    unfold postEvaluate. rewrite G. split; reflexivity.
Qed.

(** Bodies of each kind: none, an object without the field, an object
    whose password is [true], one whose password is empty, and the reading of
    a valid one. *)
Example postEvaluate_examples :
  let run body :=
    postEvaluate asciiToLowerCase (fun _ _ => []) (fun _ _ => []) (fun _ => 0%R)
      [js "password"] body in
  run JUndefined = (Threw TypeError, [])
  /\ run (JObject [])
     = (Responded {| status := 400; json := ErrorBody invalidMessage |}, [])
  /\ run (JObject [(js "password", JBool true)])
     = (Responded {| status := 400; json := ErrorBody invalidMessage |}, [])
  /\ run (JObject [(js "user", JString (js "ana")); (js "password", JString [])])
     = (Responded {| status := 400; json := ErrorBody invalidMessage |}, [])
  /\ getPassword (JObject [(js "password", JString (js "hola"))])
     = Some (JString (js "hola")).
Proof.
  cbv zeta. repeat split.
Qed.

(** X18. Every 200 answer masks the password as "***", reports the number
    of code units and the keyspace size of the password, and never reports
    both an exact and a partial match: a contained word is reported only for
    a password that is no exact member, and is an entry of the corpus of at
    least five code units. *)
Theorem evaluate_reports (commonPasswords : list jsstring) (s : jsstring) :
  s <> [] ->
  exists res,
    value (evaluate' commonPasswords (JString s))
    = {| status := 200; json := ResultBody res |}
    /\ password res = js "***"
    /\ length_ (evaluation res) = length s
    /\ 1 <= length_ (evaluation res)
    /\ keyspace (evaluation res) = calculateN (Some s)
    /\ keyspace (evaluation res) <= 94
    /\ (isCommon (evaluation res) = true <-> In s commonPasswords)
    /\ (forall w, containedCommonWord (evaluation res) = Some w ->
          isCommon (evaluation res) = false
          /\ In w commonPasswords /\ 5 <= length w
          /\ findPartialMatch toLowerCase s commonPasswords = Some w).
Proof.
  intros Hne. rewrite (evaluate_nonempty_string _ _ _ _ _ Hne).
  rewrite evaluateString_value. cbv zeta.
  eexists. split; [reflexivity |].
  cbn [password evaluation length_ keyspace isCommon containedCommonWord].
  split; [reflexivity |].
  assert (HL : calculateL (Some s) = length s) by (destruct s; reflexivity).
  split; [exact HL |]. split; [rewrite HL; destruct s; [congruence | simpl; lia] |].
  split; [reflexivity |]. split; [apply calculateN_le_94 |].
  split; [apply has_spec |].
  intros w Hw. destruct (has commonPasswords s); [discriminate Hw |].
  split; [reflexivity |].
  destruct (findPartialMatch_bounds toLowerCase s commonPasswords) as [B _].
  destruct (B w Hw) as [Hin [H5 _]]. auto.
Qed.

(** X19. The recommendation follows the three cases: the breach text for an
    exact member; for a partial match the sentence that quotes the word
    found; the congratulation when neither holds. *)
Theorem evaluate_recommendation (commonPasswords : list jsstring) (s : jsstring) :
  s <> [] ->
  exists res,
    value (evaluate' commonPasswords (JString s))
    = {| status := 200; json := ResultBody res |}
    /\ (In s commonPasswords ->
        recommendation (security_tips res)
        = js "Esta contraseña es comun entre las contraseñas filtradas. Cambiala por una más segura.")
    /\ (~ In s commonPasswords ->
        forall w, findPartialMatch toLowerCase s commonPasswords = Some w ->
        recommendation (security_tips res)
        = js "Tu contraseña contiene la palabra común '" ++ w ++ js "'")
    /\ (~ In s commonPasswords ->
        findPartialMatch toLowerCase s commonPasswords = None ->
        recommendation (security_tips res) = js "¡Buena contraseña!").
Proof.
  intros Hne. rewrite (evaluate_nonempty_string _ _ _ _ _ Hne).
  rewrite evaluateString_value. cbv zeta.
  eexists. split; [reflexivity |].
  cbn [security_tips recommendation].
  pose proof (has_spec commonPasswords s) as Hhas.
  destruct (has commonPasswords s).
  - split; [reflexivity |].
    split; intros Hn; exfalso; apply Hn, Hhas; reflexivity.
  - split; [intros Hin; apply Hhas in Hin; discriminate Hin |]. split.
    + intros _ w Hw. rewrite Hw.
      rewrite (truthyMatch_findPartialMatch _ _ _ Hw). reflexivity.
    + intros _ Hw. rewrite Hw. reflexivity.
Qed.

(** X20. Before any row has been read the corpus is empty, and every valid
    password is answered by its entropy alone: not common, no contained
    word, the label and the crack time of the entropy, and the
    congratulation. *)
Theorem evaluate_empty_corpus (s : jsstring) :
  s <> [] ->
  let E := calculateEntropy (INR (length s)) (calculateN (Some s)) in
  exists res,
    value (evaluate' [] (JString s)) = {| status := 200; json := ResultBody res |}
    /\ isCommon (evaluation res) = false
    /\ containedCommonWord (evaluation res) = None
    /\ strength (evaluation res) = checkPasswordStrength E
    /\ estimatedCrackTime (security_tips res)
       = calculateCrackTime toFixed toLocaleString E
    /\ recommendation (security_tips res) = js "¡Buena contraseña!".
Proof.
  intros Hne E. rewrite (evaluate_nonempty_string _ _ _ _ _ Hne).
  rewrite evaluateString_value. cbv zeta.
  assert (HL : calculateL (Some s) = length s) by (destruct s; reflexivity).
  rewrite HL. fold E.
  eexists. split; [reflexivity |]. repeat split.
Qed.

(** X21. A valid password of at most nine code units is never reported
    "Fuerte" or "Muy Fuerte": its label is "Débil", or one of the two labels
    of the corpus matches. *)
Theorem evaluate_short_password (commonPasswords : list jsstring) (s : jsstring) :
  s <> [] ->
  length s <= 9 ->
  exists res,
    value (evaluate' commonPasswords (JString s))
    = {| status := 200; json := ResultBody res |}
    /\ (strength (evaluation res) = js "Débil"
        \/ strength (evaluation res) = js "Muy Débil (Común)"
        \/ strength (evaluation res) = js "Débil (Predecible)")
    /\ strength (evaluation res) <> js "Fuerte"
    /\ strength (evaluation res) <> js "Muy Fuerte".
Proof.
  intros Hne Hlen. rewrite (evaluate_nonempty_string _ _ _ _ _ Hne).
  rewrite evaluateString_value. cbv zeta.
  eexists. split; [reflexivity |].
  cbn [evaluation strength].
  rewrite (checkPasswordStrength_below_60 (short_password_entropy s Hlen)).
  destruct (has commonPasswords s);
    [| destruct (truthyMatch (findPartialMatch toLowerCase s commonPasswords))];
    (split; [tauto | split; discriminate]).
Qed.

End RouteMore.

(** Instances of the route theorems above, over the ASCII case mapping and
    formatters that print nothing. *)

Lemma evaluate_reports_witness :
  js "Mi-password-123" <> []
  /\ exists res,
      value (evaluate asciiToLowerCase (fun _ _ => []) (fun _ _ => []) (fun _ => 0%R)
               [js "123456"; js "password"] (JString (js "Mi-password-123")))
      = {| status := 200; json := ResultBody res |}
      /\ password res = js "***"
      /\ length_ (evaluation res) = length (js "Mi-password-123").
Proof.
  assert (Hne : js "Mi-password-123" <> []) by discriminate.
  split; [exact Hne |].
  destruct (@evaluate_reports asciiToLowerCase (fun _ _ => []) (fun _ _ => [])
              (fun _ => 0%R) [js "123456"; js "password"] (js "Mi-password-123") Hne)
    as [res [Hv [Hp [Hl _]]]].
  exists res. auto.
Defined.

Lemma evaluate_recommendation_witness :
  js "Mi-password-123" <> []
  /\ exists res,
      value (evaluate asciiToLowerCase (fun _ _ => []) (fun _ _ => []) (fun _ => 0%R)
               [js "123456"; js "password"] (JString (js "Mi-password-123")))
      = {| status := 200; json := ResultBody res |}
      /\ recommendation (security_tips res)
         = js "Tu contraseña contiene la palabra común 'password'".
Proof.
  assert (Hne : js "Mi-password-123" <> []) by discriminate.
  split; [exact Hne |].
  destruct (@evaluate_recommendation asciiToLowerCase (fun _ _ => []) (fun _ _ => [])
              (fun _ => 0%R) [js "123456"; js "password"] (js "Mi-password-123") Hne)
    as [res [Hv [_ [Hpartial _]]]].
  exists res. split; [exact Hv |].
  apply (Hpartial ltac:(cbn; intuition discriminate) (js "password")).
  reflexivity.
Defined.

Lemma evaluate_empty_corpus_witness :
  js "hola" <> []
  /\ exists res,
      value (evaluate asciiToLowerCase (fun _ _ => []) (fun _ _ => []) (fun _ => 0%R)
               [] (JString (js "hola")))
      = {| status := 200; json := ResultBody res |}
      /\ isCommon (evaluation res) = false
      /\ containedCommonWord (evaluation res) = None.
Proof.
  assert (Hne : js "hola" <> []) by discriminate.
  split; [exact Hne |].
  destruct (@evaluate_empty_corpus asciiToLowerCase (fun _ _ => []) (fun _ _ => [])
              (fun _ => 0%R) (js "hola") Hne)
    as [res [Hv [Hc [Hw _]]]].
  exists res. auto.
Defined.

Lemma evaluate_short_password_witness :
  (js "Ab3$Ab3$x" <> [] /\ length (js "Ab3$Ab3$x") <= 9)
  /\ exists res,
      value (evaluate asciiToLowerCase (fun _ _ => []) (fun _ _ => []) (fun _ => 0%R)
               [js "123456"; js "password"] (JString (js "Ab3$Ab3$x")))
      = {| status := 200; json := ResultBody res |}
      /\ strength (evaluation res) <> js "Fuerte".
Proof.
  assert (Hne : js "Ab3$Ab3$x" <> []) by discriminate.
  assert (Hlen : length (js "Ab3$Ab3$x") <= 9) by (vm_compute; lia).
  split; [split; assumption |].
  destruct (@evaluate_short_password asciiToLowerCase (fun _ _ => []) (fun _ _ => [])
              (fun _ => 0%R) [js "123456"; js "password"] (js "Ab3$Ab3$x") Hne Hlen)
    as [res [Hv [_ [Hf _]]]].
  exists res. auto.
Defined.

(* ------------------------------------------------------------------ *)
(** ** Appending to a password *)

Open Scope R_scope.

Lemma calculateEntropy_le (L1 L2 : R) (N1 N2 : nat) :
  0 <= L1 <= L2 -> (N1 <= N2)%nat ->
  calculateEntropy L1 N1 <= calculateEntropy L2 N2.
Proof.
  intros [H0 HL] HN. destruct (Nat.eq_dec N1 0) as [-> | H1].
  - rewrite calculateEntropy_zero. apply calculateEntropy_nonneg. lra.
  - assert (H2 : N2 <> 0%nat) by lia.
    rewrite (calculateEntropy_pos _ H1), (calculateEntropy_pos _ H2).
    apply Rmult_le_compat; [exact H0 | apply log2_nonneg, INR_ge_1, H1 | exact HL |].
    apply log2_le; [| apply le_INR, HN].
    apply Rlt_le_trans with 1; [lra | apply INR_ge_1, H1].
Qed.

Lemma checkPasswordStrength_cases (E : R) :
  (E < 60 /\ checkPasswordStrength E = js "Débil")
  \/ (60 <= E < 80 /\ checkPasswordStrength E = js "Fuerte")
  \/ (80 <= E /\ checkPasswordStrength E = js "Muy Fuerte").
Proof.
  destruct (Rlt_dec E 60) as [A | A];
    [left; split; [exact A | apply checkPasswordStrength_below_60, A] |].
  destruct (Rlt_dec E 80) as [B | B].
  - right; left. split; [lra | apply checkPasswordStrength_60_to_80; lra].
  - right; right. split; [lra | apply checkPasswordStrength_from_80; lra].
Qed.

(** X22. Appending code units to a password never lowers its entropy, so the
    label never gets worse: a "Muy Fuerte" password stays "Muy Fuerte", a
    "Fuerte" one does not become "Débil". *)
Theorem appending_never_weakens (s t : jsstring) :
  let E (p : jsstring) :=
    calculateEntropy (INR (calculateL (Some p))) (calculateN (Some p)) in
  E s <= E (s ++ t)
  /\ (checkPasswordStrength (E s) = js "Muy Fuerte" ->
      checkPasswordStrength (E (s ++ t)) = js "Muy Fuerte")
  /\ (checkPasswordStrength (E s) = js "Fuerte" ->
      checkPasswordStrength (E (s ++ t)) <> js "Débil").
Proof.
  intros E.
  assert (M : E s <= E (s ++ t)).
  { unfold E. apply calculateEntropy_le.
    - assert (HL : forall p, calculateL (Some p) = length p)
        by (intros p; destruct p; reflexivity).
      rewrite !HL, length_app. split; [apply pos_INR | apply le_INR; lia].
    - apply calculateN_incl, incl_appl, incl_refl. }
  split; [exact M |].
  destruct (checkPasswordStrength_cases (E s)) as [[A ->] | [[A ->] | [A ->]]];
    destruct (checkPasswordStrength_cases (E (s ++ t))) as [[B ->] | [[B ->] | [B ->]]];
    split; intros H; try discriminate H; try reflexivity; try discriminate;
    exfalso; lra.
Qed.

Close Scope R_scope.
